(** * gocb management and sub-document wrappers: a shallow embedding

    The Go sources embedded here are the bucket manager, the query index
    manager (index watching), the view index manager (design document
    names), the view query options encoder and the sub-document spec
    builders.  The networking engine (gocbcore), [encoding/json], [net/url]
    and the clock are collaborators of the code: they appear as function
    fields, scripts of replies or section variables.

    Conventions
    - Go [int], [int64] and [time.Duration] are [Z]; where the source can
      overflow the wrap-around is written with [wrap64].
    - Go strings are byte sequences: [string].
    - [url.Values] (a [map[string][]string]) is [gmap string (list string)].
    - a Go [error] result is a sum [error + A]; [inl] is the error. *)

From Stdlib Require Import ZArith Lia.
From stdpp Require Import base option list strings gmap fin_maps pretty.

Local Open Scope Z_scope.
#[local] Set Warnings "-clear-no-such-hyp".

(* ===================================================================== *)
(** * Part I: definitions                                                 *)
(* ===================================================================== *)

(** ** Machine integers and durations *)

(** Two's complement reduction of a mathematical integer to [int64]. *)
Definition wrap64 (z : Z) : Z := (z + 2 ^ 63) mod 2 ^ 64 - 2 ^ 63.

Definition minInt64 : Z := - 2 ^ 63.
Definition maxInt64 : Z := 2 ^ 63 - 1.

(** [time.Duration] is an [int64] count of nanoseconds. *)
Definition Duration := Z.
Definition Nanosecond : Duration := 1.
Definition Millisecond : Duration := 1000000.
Definition Second : Duration := 1000000000.

(** ** Errors

    The typed errors of the package that the embedded code constructs,
    and the errors it only passes through.  Errors raised by the engine,
    by reading a response body or by the JSON codec are values of other
    packages: they can never be one of the typed errors, which the
    separate constructors record. *)
Inductive error : Type :=
  | invalidArgumentsError (message : string)
  | timeoutError (operation : string)
  | bucketManagerError (message : string) (statusCode : Z)
  | viewIndexError (statusCode : Z) (message : string) (indexMissing : bool)
  | queryIndexError (indexMissing : bool) (message : string)
  | contextDeadlineExceeded
  | engineError (what : string)
  | ioError (what : string)
  | jsonError (what : string)
  | errorsNew (message : string)
  | errorsWrap (cause : error) (message : string).

(** ** Strings ([strings] package) *)

(** [strings.HasPrefix]. *)
Fixpoint HasPrefix (s prefix : string) {struct prefix} : bool :=
  match prefix, s with
  | EmptyString, _ => true
  | String _ _, EmptyString => false
  | String p prefix', String c s' =>
      if Ascii.eqb c p then HasPrefix s' prefix' else false
  end.

(** Membership of a byte in a cutset. *)
Fixpoint inCutset (c : Ascii.ascii) (cutset : string) : bool :=
  match cutset with
  | EmptyString => false
  | String d cutset' => if Ascii.eqb c d then true else inCutset c cutset'
  end.

(** [strings.TrimLeft s cutset]: the slice of [s] with all leading code
    points contained in [cutset] removed.  For a cutset of ASCII
    characters, the only use in the package, this is the removal of the
    leading bytes that belong to the cutset. *)
Fixpoint TrimLeft (s cutset : string) : string :=
  match s with
  | EmptyString => EmptyString
  | String c s' => if inCutset c cutset then TrimLeft s' cutset else s
  end.

(** Dropping [n] leading bytes, [s[n:]]. *)
Fixpoint dropString (n : nat) (s : string) : string :=
  match n, s with
  | O, _ => s
  | S n', String _ s' => dropString n' s'
  | S _, EmptyString => EmptyString
  end.

(** [strings.TrimPrefix]. *)
Definition TrimPrefix (s prefix : string) : string :=
  if HasPrefix s prefix then dropString (String.length prefix) s else s.

(** ** Design document names (view index manager) *)

(** [DesignDocumentNamespace] is a [bool]: production is [true]. *)
Definition DesignDocumentNamespace := bool.
Definition ProductionDesignDocumentNamespace : DesignDocumentNamespace := true.
Definition DevelopmentDesignDocumentNamespace : DesignDocumentNamespace := false.

(** [ViewIndexManager.ddocName]. *)
Definition ddocName (name : string) (isProd : DesignDocumentNamespace) : string :=
  if isProd then
    if HasPrefix name "dev_" then TrimLeft name "dev_" else name
  else
    if negb (HasPrefix name "dev_") then "dev_" +:+ name else name.

(** ** Contexts and the clock

    A [context.Context] is used by the embedded code only through its
    deadline.  The clock reading [now] is an input of every operation. *)
Record Context : Type := { Deadline : option Z }.

(** [context.Background()]: no deadline. *)
Definition Background : Context := {| Deadline := None |}.

(** [context.WithTimeout parent timeout] at clock reading [now]: the new
    deadline is [now + timeout] unless the parent expires earlier. *)
Definition WithTimeout (parent : Context) (timeout : Duration) (now : Z) : Context :=
  let d := now + timeout in
  {| Deadline := Some (match Deadline parent with
                       | Some p => Z.min p d
                       | None => d
                       end) |}.

(** [contextFromMaybeTimeout]; a nil context is [None]. *)
Definition contextFromMaybeTimeout (ctx : option Context) (timeout globalTimeout : Duration)
    (now : Z) : Context :=
  let timeout := if timeout =? 0 then globalTimeout else timeout in
  match ctx with
  | None => WithTimeout Background timeout now
  | Some ctx => WithTimeout ctx timeout now
  end.

(** ** Retry strategies *)

(** A caller's [RetryStrategy] (an interface value), identified by a
    label; the nil interface is [None]. *)
Record RetryStrategy : Type := { strategyName : string }.

(** Modelled from the spec: [retryStrategyWrapper] and
    [newRetryStrategyWrapper] are declared in a file that is not among the
    sources; the value a request carries is "a wrapper of that supplied
    strategy", so the wrapper records the strategy it was made from. *)
Record retryStrategyWrapper : Type := { wrapped : option RetryStrategy }.

Definition newRetryStrategyWrapper (strategy : option RetryStrategy) : retryStrategyWrapper :=
  {| wrapped := strategy |}.

(** ** HTTP requests and responses of the engine *)

Inductive ServiceType : Type := MgmtService | CapiService.

(** [gocbcore.HttpRequest], with the fields the package sets. *)
Record HttpRequest : Type := {
  Service : ServiceType;
  Path : string;
  Method : string;
  Body : string;
  ContentType : string;
  ReqContext : Context;
  IsIdempotent : bool;
  ReqRetryStrategy : retryStrategyWrapper;
  UniqueId : string
}.

(** A response body is a stream: reading it to the end yields its bytes
    or fails. *)
Inductive bodyStream : Type :=
  | BodyData (data : string)
  | BodyFails (what : string).

(** [ioutil.ReadAll]. *)
Definition ReadAll (body : bodyStream) : error + string :=
  match body with
  | BodyData data => inr data
  | BodyFails what => inl (ioError what)
  end.

Record HttpResponse : Type := {
  StatusCode : Z;
  RespBody : bodyStream
}.

(** What [DoHttpRequest] can fail with: [context.DeadlineExceeded], which
    the callers compare against, or any other error of the engine. *)
Inductive engineFailure : Type :=
  | DeadlineExceeded
  | EngineFailed (what : string).

(** The [httpProvider] interface: its one method [DoHttpRequest]. *)
Definition httpProvider : Type := HttpRequest → engineFailure + HttpResponse.

(** ** [url.Values] *)

(** [url.Values.Set]. *)
Definition Values_Set (key value : string) (v : gmap string (list string))
    : gmap string (list string) :=
  <[key := [value]]> v.

(** [url.Values.Add]. *)
Definition Values_Add (key value : string) (v : gmap string (list string))
    : gmap string (list string) :=
  <[key := default [] (v !! key) ++ [value]]> v.

(** [url.Values.Del]. *)
Definition Values_Del (key : string) (v : gmap string (list string))
    : gmap string (list string) :=
  delete key v.

(** ** Bucket manager *)

Record bucketDataIn : Type := {
  bd_Name : string;
  bd_Controllers_Flush : string;
  bd_ReplicaIndex : bool;
  bd_Quota_Ram : Z;
  bd_Quota_RawRam : Z;
  bd_ReplicaNumber : Z;
  bd_BucketType : string;
  bd_ConflictResolutionType : string;
  bd_EvictionPolicy : string;
  bd_MaxTTL : Z;
  bd_CompressionMode : string
}.

Definition CouchbaseBucketType : string := "membase".
Definition MemcachedBucketType : string := "memcached".
Definition EphemeralBucketType : string := "ephemeral".

Record BucketSettings : Type := {
  Name : string;
  FlushEnabled : bool;
  ReplicaIndexDisabled : bool;
  RAMQuotaMB : Z;
  NumReplicas : Z;
  BucketType : string;
  EvictionPolicy : string;
  MaxTTL : Z;
  CompressionMode : string
}.

Record CreateBucketSettings : Type := {
  cbs_BucketSettings : BucketSettings;
  ConflictResolutionType : string
}.

(** String inequality test, [a != b]. *)
Definition strNe (a b : string) : bool := negb (String.eqb a b).

(** [bucketDataInToSettings]. *)
Definition bucketDataInToSettings (bucketData : bucketDataIn) : string * BucketSettings :=
  let quota := bd_Quota_RawRam bucketData in
  let quota := if quota >? 0 then Z.quot (Z.quot quota 1024) 1024 else quota in
  let bucketType :=
    if String.eqb (bd_BucketType bucketData) "membase" then CouchbaseBucketType
    else if String.eqb (bd_BucketType bucketData) "memcached" then MemcachedBucketType
    else if String.eqb (bd_BucketType bucketData) "ephemeral" then EphemeralBucketType
    else "" in
  (bd_Name bucketData,
   {| Name := bd_Name bucketData;
      FlushEnabled := strNe (bd_Controllers_Flush bucketData) "";
      ReplicaIndexDisabled := negb (bd_ReplicaIndex bucketData);
      RAMQuotaMB := quota;
      NumReplicas := bd_ReplicaNumber bucketData;
      BucketType := bucketType;
      EvictionPolicy := bd_EvictionPolicy bucketData;
      MaxTTL := bd_MaxTTL bucketData;
      CompressionMode := bd_CompressionMode bucketData |}).

(** [fmt.Sprintf("%d", n)]. *)
Definition formatInt (n : Z) : string := pretty n.

(** [BucketManager.settingsToPostData]. *)
Definition settingsToPostData (settings : BucketSettings) : error + gmap string (list string) :=
  let posts : gmap string (list string) := ∅ in
  if String.eqb (Name settings) "" then
    inl (invalidArgumentsError "Name invalid, must be set.")
  else if RAMQuotaMB settings <? 100 then
    inl (invalidArgumentsError "Memory quota invalid, must be greater than 100MB")
  else
    let posts := Values_Add "name" (Name settings) posts in
    let posts := Values_Add "flushEnabled" (if FlushEnabled settings then "1" else "0") posts in
    let posts := Values_Add "replicaIndex" (if ReplicaIndexDisabled settings then "0" else "1") posts in
    let typed : error + gmap string (list string) :=
      if String.eqb (BucketType settings) CouchbaseBucketType then
        inr (Values_Add "replicaNumber" (formatInt (NumReplicas settings))
               (Values_Add "bucketType" (BucketType settings) posts))
      else if String.eqb (BucketType settings) MemcachedBucketType then
        if NumReplicas settings >? 0 then
          inl (invalidArgumentsError "replicas cannot be used with memcached buckets")
        else inr (Values_Add "bucketType" (BucketType settings) posts)
      else if String.eqb (BucketType settings) EphemeralBucketType then
        inr (Values_Add "replicaNumber" (formatInt (NumReplicas settings))
               (Values_Add "bucketType" (BucketType settings) posts))
      else inl (invalidArgumentsError "Unrecognized bucket type") in
    match typed with
    | inl err => inl err
    | inr posts =>
        let posts := Values_Add "ramQuotaMB" (formatInt (RAMQuotaMB settings)) posts in
        let posts := if strNe (EvictionPolicy settings) ""
                     then Values_Add "evictionPolicy" (EvictionPolicy settings) posts
                     else posts in
        let posts := if MaxTTL settings >? 0
                     then Values_Add "maxTTL" (formatInt (MaxTTL settings)) posts
                     else posts in
        let posts := if strNe (CompressionMode settings) ""
                     then Values_Add "compressionMode" (CompressionMode settings) posts
                     else posts in
        inr posts
    end.

(** The option structs of the management operations ([GetBucketOptions],
    [GetAllBucketsOptions], [CreateBucketOptions], [UpdateBucketOptions],
    [DropBucketOptions], [FlushBucketOptions], [GetDesignDocumentOptions],
    [UpsertDesignDocumentOptions], [PublishDesignDocumentOptions]) all
    have the same three fields.  A nil [*Options] argument is [None]. *)
Record ManagementOptions : Type := {
  Timeout : Duration;
  OptContext : option Context;
  OptRetryStrategy : option RetryStrategy
}.

(** The zero value [&Options{}] that replaces a nil argument. *)
Definition zeroOptions : ManagementOptions :=
  {| Timeout := 0; OptContext := None; OptRetryStrategy := None |}.

Definition orZero (opts : option ManagementOptions) : ManagementOptions :=
  default zeroOptions opts.

(** [BucketManager]; the tracer has no effect on results and is left out. *)
Record BucketManager : Type := {
  bm_httpClient : httpProvider;
  bm_globalTimeout : Duration;
  bm_defaultRetryStrategy : retryStrategyWrapper
}.

(** Every operation takes the clock reading [now] and the identifier
    [uid] that [uuid.New().String()] yields, and returns the requests it
    handed to [DoHttpRequest] together with its Go result. *)
Section BucketManager.
(** [url.Values.Encode] and the JSON decoders of the two response
    shapes, from [net/url] and [encoding/json]. *)
Variable Encode : gmap string (list string) → string.
Variable decodeBucketData : bodyStream → string + bucketDataIn.
Variable decodeBucketsData : bodyStream → string + list bucketDataIn.

(** [BucketManager.get]. *)
Definition BucketManager_get (bm : BucketManager) (ctx : Context) (bucketName : string)
    (strategy : retryStrategyWrapper) (uid : string)
    : list HttpRequest * (error + BucketSettings) :=
  let req := {| Service := MgmtService;
                Path := "/pools/default/buckets/" +:+ bucketName;
                Method := "GET";
                Body := "";
                ContentType := "";
                ReqContext := ctx;
                IsIdempotent := true;
                ReqRetryStrategy := strategy;
                UniqueId := uid |} in
  ([req],
   match bm_httpClient bm req with
   | inl DeadlineExceeded => inl (timeoutError "mgmt")
   | inl (EngineFailed what) => inl (engineError what)
   | inr resp =>
       if negb (StatusCode resp =? 200) then
         match ReadAll (RespBody resp) with
         | inl err => inl err
         | inr data => inl (bucketManagerError data (StatusCode resp))
         end
       else
         match decodeBucketData (RespBody resp) with
         | inl what => inl (jsonError what)
         | inr bucketData => inr (snd (bucketDataInToSettings bucketData))
         end
   end).

(** [BucketManager.GetBucket]. *)
Definition GetBucket (bm : BucketManager) (bucketName : string)
    (opts : option ManagementOptions) (now : Z) (uid : string)
    : list HttpRequest * (error + BucketSettings) :=
  let opts := orZero opts in
  let ctx := contextFromMaybeTimeout (OptContext opts) (Timeout opts) (bm_globalTimeout bm) now in
  let retryStrategy := bm_defaultRetryStrategy bm in
  let retryStrategy :=
    match OptRetryStrategy opts with
    | None => newRetryStrategyWrapper (OptRetryStrategy opts)
    | Some _ => retryStrategy
    end in
  BucketManager_get bm ctx bucketName retryStrategy uid.

(** [BucketManager.GetAllBuckets]. *)
Definition GetAllBuckets (bm : BucketManager) (opts : option ManagementOptions)
    (now : Z) (uid : string)
    : list HttpRequest * (error + gmap string BucketSettings) :=
  let opts := orZero opts in
  let ctx := contextFromMaybeTimeout (OptContext opts) (Timeout opts) (bm_globalTimeout bm) now in
  let retryStrategy := bm_defaultRetryStrategy bm in
  let retryStrategy :=
    match OptRetryStrategy opts with
    | None => newRetryStrategyWrapper (OptRetryStrategy opts)
    | Some _ => retryStrategy
    end in
  let req := {| Service := MgmtService;
                Path := "/pools/default/buckets";
                Method := "GET";
                Body := "";
                ContentType := "";
                ReqContext := ctx;
                IsIdempotent := true;
                ReqRetryStrategy := retryStrategy;
                UniqueId := uid |} in
  ([req],
   match bm_httpClient bm req with
   | inl DeadlineExceeded => inl (timeoutError "mgmt")
   | inl (EngineFailed what) => inl (engineError what)
   | inr resp =>
       if negb (StatusCode resp =? 200) then
         match ReadAll (RespBody resp) with
         | inl err => inl err
         | inr data => inl (bucketManagerError data (StatusCode resp))
         end
       else
         match decodeBucketsData (RespBody resp) with
         | inl what => inl (jsonError what)
         | inr bucketsData =>
             inr (fold_left
                    (λ buckets bucketData,
                       let '(name, settings) := bucketDataInToSettings bucketData in
                       <[name := settings]> buckets)
                    bucketsData ∅)
         end
   end).

(** [BucketManager.CreateBucket]. *)
Definition CreateBucket (bm : BucketManager) (settings : CreateBucketSettings)
    (opts : option ManagementOptions) (now : Z) (uid : string)
    : list HttpRequest * option error :=
  let opts := orZero opts in
  let ctx := contextFromMaybeTimeout (OptContext opts) (Timeout opts) (bm_globalTimeout bm) now in
  let retryStrategy := bm_defaultRetryStrategy bm in
  let retryStrategy :=
    match OptRetryStrategy opts with
    | None => newRetryStrategyWrapper (OptRetryStrategy opts)
    | Some _ => retryStrategy
    end in
  match settingsToPostData (cbs_BucketSettings settings) with
  | inl err => ([], Some err)
  | inr posts =>
      let posts := if strNe (ConflictResolutionType settings) ""
                   then Values_Add "conflictResolutionType" (ConflictResolutionType settings) posts
                   else posts in
      let req := {| Service := MgmtService;
                    Path := "/pools/default/buckets";
                    Method := "POST";
                    Body := Encode posts;
                    ContentType := "application/x-www-form-urlencoded";
                    ReqContext := ctx;
                    IsIdempotent := false;
                    ReqRetryStrategy := retryStrategy;
                    UniqueId := uid |} in
      ([req],
       match bm_httpClient bm req with
       | inl DeadlineExceeded => Some (timeoutError "mgmt")
       | inl (EngineFailed what) => Some (engineError what)
       | inr resp =>
           if negb (StatusCode resp =? 202) then
             match ReadAll (RespBody resp) with
             | inl err => Some err
             | inr data =>
                 let bodyMessage := data in
                 Some (bucketManagerError bodyMessage (StatusCode resp))
             end
           else None
       end)
  end.

(** [BucketManager.UpdateBucket]. *)
Definition UpdateBucket (bm : BucketManager) (settings : BucketSettings)
    (opts : option ManagementOptions) (now : Z) (uid : string)
    : list HttpRequest * option error :=
  let opts := orZero opts in
  let ctx := contextFromMaybeTimeout (OptContext opts) (Timeout opts) (bm_globalTimeout bm) now in
  let retryStrategy := bm_defaultRetryStrategy bm in
  let retryStrategy :=
    match OptRetryStrategy opts with
    | None => newRetryStrategyWrapper (OptRetryStrategy opts)
    | Some _ => retryStrategy
    end in
  match settingsToPostData settings with
  | inl err => ([], Some err)
  | inr posts =>
      let req := {| Service := MgmtService;
                    Path := "/pools/default/buckets/" +:+ Name settings;
                    Method := "POST";
                    Body := Encode posts;
                    ContentType := "application/x-www-form-urlencoded";
                    ReqContext := ctx;
                    IsIdempotent := false;
                    ReqRetryStrategy := retryStrategy;
                    UniqueId := uid |} in
      ([req],
       match bm_httpClient bm req with
       | inl DeadlineExceeded => Some (timeoutError "mgmt")
       | inl (EngineFailed what) => Some (engineError what)
       | inr resp =>
           if negb (StatusCode resp =? 200) then
             match ReadAll (RespBody resp) with
             | inl err => Some err
             | inr data => Some (bucketManagerError data (StatusCode resp))
             end
           else None
       end)
  end.

(** [BucketManager.DropBucket]. *)
Definition DropBucket (bm : BucketManager) (name : string)
    (opts : option ManagementOptions) (now : Z) (uid : string)
    : list HttpRequest * option error :=
  let opts := orZero opts in
  let ctx := contextFromMaybeTimeout (OptContext opts) (Timeout opts) (bm_globalTimeout bm) now in
  let retryStrategy := bm_defaultRetryStrategy bm in
  let retryStrategy :=
    match OptRetryStrategy opts with
    | None => newRetryStrategyWrapper (OptRetryStrategy opts)
    | Some _ => retryStrategy
    end in
  let req := {| Service := MgmtService;
                Path := "/pools/default/buckets/" +:+ name;
                Method := "DELETE";
                Body := "";
                ContentType := "";
                ReqContext := ctx;
                IsIdempotent := false;
                ReqRetryStrategy := retryStrategy;
                UniqueId := uid |} in
  ([req],
   match bm_httpClient bm req with
   | inl DeadlineExceeded => Some (timeoutError "mgmt")
   | inl (EngineFailed what) => Some (engineError what)
   | inr resp =>
       if negb (StatusCode resp =? 200) then
         match ReadAll (RespBody resp) with
         | inl err => Some err
         | inr data => Some (bucketManagerError data (StatusCode resp))
         end
       else None
   end).

(** [BucketManager.FlushBucket]. *)
Definition FlushBucket (bm : BucketManager) (name : string)
    (opts : option ManagementOptions) (now : Z) (uid : string)
    : list HttpRequest * option error :=
  let opts := orZero opts in
  let ctx := contextFromMaybeTimeout (OptContext opts) (Timeout opts) (bm_globalTimeout bm) now in
  let retryStrategy := bm_defaultRetryStrategy bm in
  let retryStrategy :=
    match OptRetryStrategy opts with
    | None => newRetryStrategyWrapper (OptRetryStrategy opts)
    | Some _ => retryStrategy
    end in
  let req := {| Service := MgmtService;
                Path := "/pools/default/buckets/" +:+ name +:+ "/controller/doFlush";
                Method := "POST";
                Body := "";
                ContentType := "";
                ReqContext := ctx;
                IsIdempotent := false;
                ReqRetryStrategy := retryStrategy;
                UniqueId := uid |} in
  ([req],
   match bm_httpClient bm req with
   | inl DeadlineExceeded => Some (timeoutError "mgmt")
   | inl (EngineFailed what) => Some (engineError what)
   | inr resp =>
       if negb (StatusCode resp =? 200) then
         match ReadAll (RespBody resp) with
         | inl err => Some err
         | inr data => Some (bucketManagerError data (StatusCode resp))
         end
       else None
   end).
End BucketManager.

(** ** View index manager *)

Record View : Type := {
  view_Map : string;
  view_Reduce : string
}.

Record DesignDocument : Type := {
  dd_Name : string;
  dd_Views : gmap string View
}.

Record ViewIndexManager : Type := {
  vm_bucketName : string;
  vm_httpClient : httpProvider;
  vm_globalTimeout : Duration;
  vm_defaultRetryStrategy : retryStrategyWrapper
}.

Section ViewIndexManager.
(** The JSON codec of design documents, from [encoding/json]. *)
Variable decodeDesignDocument : bodyStream → string + DesignDocument.
Variable marshalDesignDocument : DesignDocument → string + string.

(** [ViewIndexManager.getDesignDocument]. *)
Definition getDesignDocument (vm : ViewIndexManager) (name : string)
    (namespace : DesignDocumentNamespace) (opts : ManagementOptions)
    (now : Z) (uid : string)
    : list HttpRequest * (error + DesignDocument) :=
  let ctx := contextFromMaybeTimeout (OptContext opts) (Timeout opts) (vm_globalTimeout vm) now in
  let name := ddocName name namespace in
  let retryStrategy := vm_defaultRetryStrategy vm in
  let retryStrategy :=
    match OptRetryStrategy opts with
    | None => newRetryStrategyWrapper (OptRetryStrategy opts)
    | Some _ => retryStrategy
    end in
  let req := {| Service := CapiService;
                Path := "/_design/" +:+ name;
                Method := "GET";
                Body := "";
                ContentType := "";
                ReqContext := ctx;
                IsIdempotent := true;
                ReqRetryStrategy := retryStrategy;
                UniqueId := uid |} in
  ([req],
   match vm_httpClient vm req with
   | inl DeadlineExceeded => inl (timeoutError "view")
   | inl (EngineFailed what) => inl (engineError what)
   | inr resp =>
       if negb (StatusCode resp =? 200) then
         match ReadAll (RespBody resp) with
         | inl err => inl err
         | inr data =>
             inl (viewIndexError (StatusCode resp) data (StatusCode resp =? 404))
         end
       else
         match decodeDesignDocument (RespBody resp) with
         | inl what => inl (jsonError what)
         | inr ddocObj =>
             inr {| dd_Name := TrimPrefix name "dev_"; dd_Views := dd_Views ddocObj |}
         end
   end).

(** [ViewIndexManager.GetDesignDocument]. *)
Definition GetDesignDocument (vm : ViewIndexManager) (name : string)
    (namespace : DesignDocumentNamespace) (opts : option ManagementOptions)
    (now : Z) (uid : string)
    : list HttpRequest * (error + DesignDocument) :=
  getDesignDocument vm name namespace (orZero opts) now uid.

(** [ViewIndexManager.upsertDesignDocument]; the request it builds sets
    no [UniqueId]. *)
Definition upsertDesignDocument (vm : ViewIndexManager) (ddoc : DesignDocument)
    (namespace : DesignDocumentNamespace) (opts : ManagementOptions) (now : Z)
    : list HttpRequest * option error :=
  let ctx := contextFromMaybeTimeout (OptContext opts) (Timeout opts) (vm_globalTimeout vm) now in
  match marshalDesignDocument ddoc with
  | inl what => ([], Some (jsonError what))
  | inr data =>
      let ddocName' := ddocName (dd_Name ddoc) namespace in
      let retryStrategy := vm_defaultRetryStrategy vm in
      let retryStrategy :=
        match OptRetryStrategy opts with
        | None => newRetryStrategyWrapper (OptRetryStrategy opts)
        | Some _ => retryStrategy
        end in
      let req := {| Service := CapiService;
                    Path := "/_design/" +:+ ddocName';
                    Method := "PUT";
                    Body := data;
                    ContentType := "";
                    ReqContext := ctx;
                    IsIdempotent := false;
                    ReqRetryStrategy := retryStrategy;
                    UniqueId := "" |} in
      ([req],
       match vm_httpClient vm req with
       | inl DeadlineExceeded => Some (timeoutError "view")
       | inl (EngineFailed what) => Some (engineError what)
       | inr resp =>
           if negb (StatusCode resp =? 201) then
             match ReadAll (RespBody resp) with
             | inl err => Some err
             | inr data => Some (viewIndexError (StatusCode resp) data false)
             end
           else None
       end)
  end.

(** [ViewIndexManager.PublishDesignDocument]: fetch the development
    document, then upsert it into the production namespace. *)
Definition PublishDesignDocument (vm : ViewIndexManager) (name : string)
    (opts : option ManagementOptions) (now : Z) (uid : string)
    : list HttpRequest * option error :=
  let opts := orZero opts in
  let ctx := contextFromMaybeTimeout (OptContext opts) (Timeout opts) (vm_globalTimeout vm) now in
  let '(sent1, got) :=
    getDesignDocument vm name false
      {| Timeout := 0; OptContext := Some ctx; OptRetryStrategy := OptRetryStrategy opts |}
      now uid in
  match got with
  | inl err =>
      (sent1,
       match err with
       | viewIndexError _ _ true =>
           Some (viewIndexError 0 "Development design document does not exist" true)
       | _ => Some err
       end)
  | inr devdoc =>
      let '(sent2, res) :=
        upsertDesignDocument vm devdoc true
          {| Timeout := 0; OptContext := Some ctx; OptRetryStrategy := OptRetryStrategy opts |}
          now in
      (sent1 ++ sent2,
       match res with
       | Some err => Some (errorsWrap err "failed to create ")
       | None => None
       end)
  end.
End ViewIndexManager.

(** ** Query index manager: watching indexes *)

Record QueryIndex : Type := {
  qi_Name : string;
  qi_IsPrimary : bool;
  qi_Type : string;
  qi_State : string;
  qi_Keyspace : string;
  qi_Namespace : string;
  qi_IndexKey : list string
}.

(** The inner loop of [checkIndexesActive]: the first index of the list
    with the given name, as the [break] selects it. *)
Fixpoint findIndex (indexes : list QueryIndex) (indexName : string) : option QueryIndex :=
  match indexes with
  | [] => None
  | index :: indexes' =>
      if String.eqb (qi_Name index) indexName then Some index
      else findIndex indexes' indexName
  end.

(** The outer loop of [checkIndexesActive]: collect, in the order of the
    check list, the index found for each name that has one. *)
Fixpoint collectIndexes (indexes : list QueryIndex) (checkList : list string)
    : list QueryIndex :=
  match checkList with
  | [] => []
  | indexName :: checkList' =>
      match findIndex indexes indexName with
      | Some index => index :: collectIndexes indexes checkList'
      | None => collectIndexes indexes checkList'
      end
  end.

(** The final loop of [checkIndexesActive]. *)
Fixpoint allOnline (checkIndexes : list QueryIndex) : bool :=
  match checkIndexes with
  | [] => true
  | index :: checkIndexes' =>
      if strNe (qi_State index) "online" then false else allOnline checkIndexes'
  end.

(** [checkIndexesActive]. *)
Definition checkIndexesActive (indexes : list QueryIndex) (checkList : list string)
    : error + bool :=
  let checkIndexes := collectIndexes indexes checkList in
  if negb (Nat.eqb (length checkIndexes) (length checkList)) then
    inl (queryIndexError true "the index specified does not exist")
  else inr (allOnline checkIndexes).

(** The rows a query yields and the error, if any, of closing them. *)
Record QueryResult : Type := {
  rows : list QueryIndex;
  closeError : option error
}.

(** One call of [qm.executeQuery] as the cluster answers it: the time the
    call takes and what it returns. *)
Record queryReply : Type := {
  latency : Duration;
  reply : error + QueryResult
}.

(** [QueryIndexManager.getAllIndexes] on the reply of its query. *)
Definition getAllIndexes (r : error + QueryResult) : error + list QueryIndex :=
  match r with
  | inl err => inl err
  | inr res =>
      let indexes := rows res in
      match closeError res with
      | Some err => inl err
      | None => inr indexes
      end
  end.

Record WatchQueryIndexOptions : Type := {
  WatchPrimary : bool;
  wo_RetryStrategy : option RetryStrategy
}.

Record WatchQueryIndexTimeout : Type := {
  wt_Timeout : Duration;
  wt_Context : option Context
}.

Record QueryIndexManager : Type := {
  qm_globalTimeout : Duration;
  qm_defaultRetryStrategy : retryStrategyWrapper
}.

(** What a run of [WatchIndexes] does, in order: a poll of the index list
    of a bucket with its outcome, or a sleep of the given duration. *)
Inductive watchEvent : Type :=
  | Polled (bucketName : string) (outcome : error + list QueryIndex)
  | Slept (d : Duration).

(** The [for] loop of [WatchIndexes].  [script] lists the replies of the
    successive queries; the loop returns [None] as its result when the
    script ends while it is still polling.  [now] is the clock, advanced
    by the latency of each query and by each sleep.  The interval is a
    [time.Duration]: the constant [1000] it is compared with and clamped
    to is a count of nanoseconds. *)
Fixpoint watchLoop (script : list queryReply) (bucketName : string) (ctx : Context)
    (watchList : list string) (curInterval : Duration) (now : Z)
    : list watchEvent * option (option error) :=
  match script with
  | [] => ([], None)
  | r :: script' =>
      let now := now + latency r in
      match getAllIndexes (reply r) with
      | inl err => ([Polled bucketName (inl err)], Some (Some err))
      | inr indexes =>
          match checkIndexesActive indexes watchList with
          | inl err => ([Polled bucketName (inr indexes)], Some (Some err))
          | inr true => ([Polled bucketName (inr indexes)], Some None)
          | inr false =>
              let curInterval := wrap64 (curInterval + 500 * Millisecond) in
              let curInterval := if curInterval >? 1000 then 1000 else curInterval in
              let expired :=
                match Deadline ctx with
                | Some d => now + curInterval >? d
                | None => false
                end in
              if expired then
                ([Polled bucketName (inr indexes)], Some (Some (timeoutError "")))
              else
                let '(events, result) :=
                  watchLoop script' bucketName ctx watchList curInterval (now + curInterval) in
                (Polled bucketName (inr indexes) :: Slept curInterval :: events, result)
          end
      end
  end.

(** [QueryIndexManager.WatchIndexes]. *)
Definition WatchIndexes (qm : QueryIndexManager) (bucketName : string)
    (watchList : list string) (timeout : WatchQueryIndexTimeout)
    (opts : option WatchQueryIndexOptions) (now : Z) (script : list queryReply)
    : list watchEvent * option (option error) :=
  if bool_decide (wt_Context timeout = None) && (wt_Timeout timeout =? 0) then
    ([], Some (Some (invalidArgumentsError
                       "either a context or a timeout value must be supplied to watch")))
  else
    let opts := default {| WatchPrimary := false; wo_RetryStrategy := None |} opts in
    let ctx := contextFromMaybeTimeout (wt_Context timeout) (wt_Timeout timeout)
                 (qm_globalTimeout qm) now in
    let watchList := if WatchPrimary opts then watchList ++ ["#primary"] else watchList in
    watchLoop script bucketName ctx watchList (50 * Millisecond) now.

(** The durations slept in a run, in order. *)
Fixpoint sleeps (events : list watchEvent) : list Duration :=
  match events with
  | [] => []
  | Slept d :: events' => d :: sleeps events'
  | Polled _ _ :: events' => sleeps events'
  end.

(** ** Values of type [interface{}] *)

(** The dynamic values the embedded code receives as [interface{}]: the
    nil interface, a [MutationMacro] (a named string type), and the plain
    values a caller passes as keys or document fragments. *)
#[warnings="-register-all"]
Inductive any : Type :=
  | AnyNil
  | AnyMacro (macro : string)
  | AnyInt64 (n : Z)
  | AnyBool (b : bool)
  | AnyString (s : string)
  | AnyList (items : list any).

(** [v != nil]. *)
Definition notNil (v : any) : bool :=
  match v with
  | AnyNil => false
  | _ => true
  end.

(** The type assertion [_, ok := val.(MutationMacro)]. *)
Definition isMutationMacro (val : any) : bool :=
  match val with
  | AnyMacro _ => true
  | _ => false
  end.

(** Early return on error: [try x := e in k]. *)
Notation "'try' x ':=' e 'in' k" :=
  (match e with
   | inl err => inl err
   | inr x => k
   end)
  (at level 10, x name, e at level 100, k at level 200, only parsing).

(** ** View query options *)

Definition ViewScanConsistencyNotBounded : Z := 1.
Definition ViewScanConsistencyRequestPlus : Z := 2.
Definition ViewScanConsistencyUpdateAfter : Z := 3.

Definition ViewOrderingAscending : Z := 1.
Definition ViewOrderingDescending : Z := 2.

Definition ViewErrorModeContinue : Z := 1.
Definition ViewErrorModeStop : Z := 2.

(** [ViewOptions], with the fields [toURLValues] reads.  [uint] fields are
    [N]; a nil [Raw] map and an empty one behave alike and are [∅]. *)
Record ViewOptions : Type := {
  ScanConsistency : Z;
  Skip : N;
  Limit : N;
  Order : Z;
  Reduce : bool;
  Group : bool;
  GroupLevel : N;
  Key : any;
  Keys : list any;
  StartKey : any;
  EndKey : any;
  InclusiveEnd : bool;
  StartKeyDocID : string;
  EndKeyDocID : string;
  Namespace : DesignDocumentNamespace;
  Raw : gmap string string;
  OnError : Z;
  Debug : bool
}.

(** [strconv.FormatUint(n, 10)]. *)
Definition FormatUint (n : N) : string := pretty n.

Section ViewOptions.
(** [ViewOptions.marshalJson]: the JSON text of a value ([encoding/json]
    with HTML escaping off), or the description of the encoder's error. *)
Variable marshalJson : any → string + string.

(** The same call with its error as a Go [error]. *)
Definition marshal (value : any) : error + string :=
  match marshalJson value with
  | inl what => inl (jsonError what)
  | inr text => inr text
  end.

(** [ViewOptions.toURLValues]. *)
Definition toURLValues (opts : ViewOptions) : error + gmap string (list string) :=
  let options : gmap string (list string) := ∅ in
  try options :=
    (if negb (ScanConsistency opts =? 0) then
       if ScanConsistency opts =? ViewScanConsistencyRequestPlus then
         inr (Values_Set "stale" "false" options)
       else if ScanConsistency opts =? ViewScanConsistencyNotBounded then
         inr (Values_Set "stale" "ok" options)
       else if ScanConsistency opts =? ViewScanConsistencyUpdateAfter then
         inr (Values_Set "stale" "update_after" options)
       else inl (invalidArgumentsError "unexpected stale option")
     else inr options) in
  let options :=
    if negb (Skip opts =? 0)%N then Values_Set "skip" (FormatUint (Skip opts)) options
    else options in
  let options :=
    if negb (Limit opts =? 0)%N then Values_Set "limit" (FormatUint (Limit opts)) options
    else options in
  try options :=
    (if negb (Order opts =? 0) then
       if Order opts =? ViewOrderingAscending then
         inr (Values_Set "descending" "false" options)
       else if Order opts =? ViewOrderingDescending then
         inr (Values_Set "descending" "true" options)
       else inl (invalidArgumentsError "unexpected order option")
     else inr options) in
  let options := Values_Set "reduce" "false" options in
  let options :=
    if Reduce opts then
      let options := Values_Set "reduce" "true" options in
      let options := Values_Set "group" "false" options in
      let options := if Group opts then Values_Set "group" "true" options else options in
      if negb (GroupLevel opts =? 0)%N
      then Values_Set "group_level" (FormatUint (GroupLevel opts)) options
      else options
    else options in
  try options :=
    (if notNil (Key opts) then
       try jsonKey := marshal (Key opts) in
       inr (Values_Set "key" jsonKey options)
     else inr options) in
  try options :=
    (if (0 <? length (Keys opts))%nat then
       try jsonKeys := marshal (AnyList (Keys opts)) in
       inr (Values_Set "keys" jsonKeys options)
     else inr options) in
  try options :=
    (if notNil (StartKey opts) then
       try jsonStartKey := marshal (StartKey opts) in
       inr (Values_Set "startkey" jsonStartKey options)
     else inr (Values_Del "startkey" options)) in
  try options :=
    (if notNil (EndKey opts) then
       try jsonEndKey := marshal (EndKey opts) in
       inr (Values_Set "endkey" jsonEndKey options)
     else inr (Values_Del "endkey" options)) in
  let options :=
    if notNil (StartKey opts) || notNil (EndKey opts) then
      if InclusiveEnd opts then Values_Set "inclusive_end" "true" options
      else Values_Set "inclusive_end" "false" options
    else options in
  let options :=
    if String.eqb (StartKeyDocID opts) "" then Values_Del "startkey_docid" options
    else Values_Set "startkey_docid" (StartKeyDocID opts) options in
  let options :=
    if String.eqb (EndKeyDocID opts) "" then Values_Del "endkey_docid" options
    else Values_Set "endkey_docid" (EndKeyDocID opts) options in
  try options :=
    (if OnError opts >? 0 then
       if OnError opts =? ViewErrorModeContinue then
         inr (Values_Set "on_error" "continue" options)
       else if OnError opts =? ViewErrorModeStop then
         inr (Values_Set "on_error" "stop" options)
       else inl (invalidArgumentsError "unexpected onerror option")
     else inr options) in
  let options := if Debug opts then Values_Set "debug" "true" options else options in
  let options := map_fold (λ k v options, Values_Set k v options) options (Raw opts) in
  inr options.

(** The steps of [toURLValues] in the order of the source, each as a
    function of the values built so far.  They serve the proofs:
    [toURLValues_steps] states that [toURLValues] runs them in sequence. *)
Definition setStale (opts : ViewOptions) (options : gmap string (list string))
    : error + gmap string (list string) :=
  if negb (ScanConsistency opts =? 0) then
    if ScanConsistency opts =? ViewScanConsistencyRequestPlus then
      inr (Values_Set "stale" "false" options)
    else if ScanConsistency opts =? ViewScanConsistencyNotBounded then
      inr (Values_Set "stale" "ok" options)
    else if ScanConsistency opts =? ViewScanConsistencyUpdateAfter then
      inr (Values_Set "stale" "update_after" options)
    else inl (invalidArgumentsError "unexpected stale option")
  else inr options.

Definition setPaging (opts : ViewOptions) (options : gmap string (list string))
    : gmap string (list string) :=
  let options :=
    if negb (Skip opts =? 0)%N then Values_Set "skip" (FormatUint (Skip opts)) options
    else options in
  if negb (Limit opts =? 0)%N then Values_Set "limit" (FormatUint (Limit opts)) options
  else options.

Definition setOrder (opts : ViewOptions) (options : gmap string (list string))
    : error + gmap string (list string) :=
  if negb (Order opts =? 0) then
    if Order opts =? ViewOrderingAscending then
      inr (Values_Set "descending" "false" options)
    else if Order opts =? ViewOrderingDescending then
      inr (Values_Set "descending" "true" options)
    else inl (invalidArgumentsError "unexpected order option")
  else inr options.

Definition setReduce (opts : ViewOptions) (options : gmap string (list string))
    : gmap string (list string) :=
  let options := Values_Set "reduce" "false" options in
  if Reduce opts then
    let options := Values_Set "reduce" "true" options in
    let options := Values_Set "group" "false" options in
    let options := if Group opts then Values_Set "group" "true" options else options in
    if negb (GroupLevel opts =? 0)%N
    then Values_Set "group_level" (FormatUint (GroupLevel opts)) options
    else options
  else options.

Definition setKey (opts : ViewOptions) (options : gmap string (list string))
    : error + gmap string (list string) :=
  if notNil (Key opts) then
    try jsonKey := marshal (Key opts) in
    inr (Values_Set "key" jsonKey options)
  else inr options.

Definition setKeys (opts : ViewOptions) (options : gmap string (list string))
    : error + gmap string (list string) :=
  if (0 <? length (Keys opts))%nat then
    try jsonKeys := marshal (AnyList (Keys opts)) in
    inr (Values_Set "keys" jsonKeys options)
  else inr options.

Definition setStartKey (opts : ViewOptions) (options : gmap string (list string))
    : error + gmap string (list string) :=
  if notNil (StartKey opts) then
    try jsonStartKey := marshal (StartKey opts) in
    inr (Values_Set "startkey" jsonStartKey options)
  else inr (Values_Del "startkey" options).

Definition setEndKey (opts : ViewOptions) (options : gmap string (list string))
    : error + gmap string (list string) :=
  if notNil (EndKey opts) then
    try jsonEndKey := marshal (EndKey opts) in
    inr (Values_Set "endkey" jsonEndKey options)
  else inr (Values_Del "endkey" options).

Definition setRange (opts : ViewOptions) (options : gmap string (list string))
    : gmap string (list string) :=
  let options :=
    if notNil (StartKey opts) || notNil (EndKey opts) then
      if InclusiveEnd opts then Values_Set "inclusive_end" "true" options
      else Values_Set "inclusive_end" "false" options
    else options in
  let options :=
    if String.eqb (StartKeyDocID opts) "" then Values_Del "startkey_docid" options
    else Values_Set "startkey_docid" (StartKeyDocID opts) options in
  if String.eqb (EndKeyDocID opts) "" then Values_Del "endkey_docid" options
  else Values_Set "endkey_docid" (EndKeyDocID opts) options.

Definition setOnError (opts : ViewOptions) (options : gmap string (list string))
    : error + gmap string (list string) :=
  if OnError opts >? 0 then
    if OnError opts =? ViewErrorModeContinue then
      inr (Values_Set "on_error" "continue" options)
    else if OnError opts =? ViewErrorModeStop then
      inr (Values_Set "on_error" "stop" options)
    else inl (invalidArgumentsError "unexpected onerror option")
  else inr options.

Definition setDebugAndRaw (opts : ViewOptions) (options : gmap string (list string))
    : gmap string (list string) :=
  let options := if Debug opts then Values_Set "debug" "true" options else options in
  map_fold (λ k v options, Values_Set k v options) options (Raw opts).
End ViewOptions.

(** ** Sub-document operations *)

(** The opcodes of [gocbcore] that the embedded builders use. *)
Inductive SubDocOpType : Type :=
  | SubDocOpGet
  | SubDocOpExists
  | SubDocOpGetCount
  | SubDocOpGetDoc
  | SubDocOpDictAdd
  | SubDocOpCounter.

(** [gocbcore.SubDocOp]; [SubdocFlag] is a [uint8]. *)
Record SubDocOp : Type := {
  sd_Op : SubDocOpType;
  sd_Flags : Z;
  sd_Path : string;
  sd_Value : string
}.

(** [LookupInOp] wraps one engine operation. *)
Record LookupInOp : Type := { lookup_op : SubDocOp }.

(** The package's own [subDocOp], whose value is still unencoded. *)
Record subDocOp : Type := {
  Op : SubDocOpType;
  Flags : Z;
  OpPath : string;
  Value : any;
  MultiValue : bool
}.

Record MutateInOp : Type := { mutate_op : subDocOp }.

Record MutateInSpecInsertOptions : Type := {
  ins_CreatePath : bool;
  ins_IsXattr : bool
}.

Record MutateInSpecCounterOptions : Type := {
  cnt_CreatePath : bool;
  cnt_IsXattr : bool
}.

(** [LookupInOptions]; the serializer only matters to the decoding of the
    reply. *)
Record LookupInOptions : Type := {
  lio_Context : option Context;
  lio_Timeout : Duration;
  WithExpiry : bool
}.

(** [gocbcore.LookupInOptions]: the request handed to the kv provider. *)
Record coreLookupInOptions : Type := {
  co_Key : string;
  co_Ops : list SubDocOp;
  co_CollectionName : string;
  co_ScopeName : string
}.

Section SubDoc.
(** The flag constants [SubdocFlagNone], [SubdocFlagCreatePath],
    [SubdocFlagXattr] and [SubdocFlagUseMacros] are declared in a file
    that is not among the sources: they are parameters here. *)
Variable SubdocFlagNone : Z.
Variable SubdocFlagCreatePath : Z.
Variable SubdocFlagXattr : Z.
Variable SubdocFlagUseMacros : Z.

(** [LookupInSpec.getWithFlags]. *)
Definition getWithFlags (path : string) (isXattr : bool) : LookupInOp :=
  let flags := 0 in
  let flags := if isXattr then Z.lor flags SubdocFlagXattr else flags in
  {| lookup_op := {| sd_Op := SubDocOpGet; sd_Flags := flags; sd_Path := path; sd_Value := "" |} |}.

(** [LookupInSpec.Get].  The options structs of the lookup builders have
    the single field [IsXattr]; nil options are [None]. *)
Definition LookupInSpec_Get (path : string) (opts : option bool) : LookupInOp :=
  getWithFlags path (default false opts).

(** [LookupInSpec.GetFull]. *)
Definition LookupInSpec_GetFull : LookupInOp :=
  {| lookup_op := {| sd_Op := SubDocOpGetDoc; sd_Flags := SubdocFlagNone;
                     sd_Path := ""; sd_Value := "" |} |}.

(** [LookupInSpec.Exists]. *)
Definition LookupInSpec_Exists (path : string) (opts : option bool) : LookupInOp :=
  let isXattr := default false opts in
  let flags := 0 in
  let flags := if isXattr then Z.lor flags SubdocFlagXattr else flags in
  {| lookup_op := {| sd_Op := SubDocOpExists; sd_Flags := flags; sd_Path := path; sd_Value := "" |} |}.

(** [LookupInSpec.Count]. *)
Definition LookupInSpec_Count (path : string) (opts : option bool) : LookupInOp :=
  let isXattr := default false opts in
  let flags := 0 in
  let flags := if isXattr then Z.lor flags SubdocFlagXattr else flags in
  {| lookup_op := {| sd_Op := SubDocOpGetCount; sd_Flags := flags; sd_Path := path; sd_Value := "" |} |}.

(** [MutateInSpec.Insert].  When the value is a macro the source also
    sets [IsXattr] in the caller's options struct; the operation built is
    all that is returned. *)
Definition Insert (path : string) (val : any) (opts : option MutateInSpecInsertOptions)
    : MutateInOp :=
  let opts := default {| ins_CreatePath := false; ins_IsXattr := false |} opts in
  let flags := 0 in
  let ok := isMutationMacro val in
  let flags := if ok then Z.lor flags SubdocFlagUseMacros else flags in
  let opts := if ok then {| ins_CreatePath := ins_CreatePath opts; ins_IsXattr := true |}
              else opts in
  let flags := if ins_CreatePath opts then Z.lor flags SubdocFlagCreatePath else flags in
  let flags := if ins_IsXattr opts then Z.lor flags SubdocFlagXattr else flags in
  {| mutate_op := {| Op := SubDocOpDictAdd; Flags := flags; OpPath := path;
                     Value := val; MultiValue := false |} |}.

(** [MutateInSpec.Increment]; [delta] is an [int64]. *)
Definition Increment (path : string) (delta : Z) (opts : option MutateInSpecCounterOptions)
    : MutateInOp :=
  let opts := default {| cnt_CreatePath := false; cnt_IsXattr := false |} opts in
  let flags := 0 in
  let flags := if cnt_CreatePath opts then Z.lor flags SubdocFlagCreatePath else flags in
  let flags := if cnt_IsXattr opts then Z.lor flags SubdocFlagXattr else flags in
  {| mutate_op := {| Op := SubDocOpCounter; Flags := flags; OpPath := path;
                     Value := AnyInt64 delta; MultiValue := false |} |}.

(** [MutateInSpec.Decrement]; [-delta] wraps in [int64]. *)
Definition Decrement (path : string) (delta : Z) (opts : option MutateInSpecCounterOptions)
    : MutateInOp :=
  let opts := default {| cnt_CreatePath := false; cnt_IsXattr := false |} opts in
  let flags := 0 in
  let flags := if cnt_CreatePath opts then Z.lor flags SubdocFlagCreatePath else flags in
  let flags := if cnt_IsXattr opts then Z.lor flags SubdocFlagXattr else flags in
  {| mutate_op := {| Op := SubDocOpCounter; Flags := flags; OpPath := path;
                     Value := AnyInt64 (wrap64 (- delta)); MultiValue := false |} |}.

(** The kv provider ([LookupInEx]) and what follows the dispatch: the
    callback that decodes the engine's reply and [ctrl.wait].  Both act
    after the request has been handed over; [finish] turns the reply for
    the given operations into the result of [lookupIn]. *)
Variable kvReply : Type.
Variable LookupInResult : Type.
Variable finish : list SubDocOp → LookupInOptions → kvReply → error + LookupInResult.

(** [Collection]: its kv provider, if one can be had, and its names. *)
Record Collection : Type := {
  getKvProvider : error + (coreLookupInOptions → kvReply);
  c_name : string;
  c_scopeName : string
}.

(** [Collection.lookupIn]: the requests dispatched to the kv provider and
    the result. *)
Definition lookupIn (c : Collection) (key : string) (ops : list LookupInOp)
    (opts : LookupInOptions) : list coreLookupInOptions * (error + LookupInResult) :=
  match getKvProvider c with
  | inl err => ([], inl err)
  | inr agent =>
      let subdocs := fold_left (λ subdocs op, subdocs ++ [lookup_op op]) ops [] in
      let subdocs :=
        if WithExpiry opts then
          let op := {| sd_Op := SubDocOpGet; sd_Flags := SubdocFlagXattr;
                       sd_Path := "$document.exptime"; sd_Value := "" |} in
          [op] ++ subdocs
        else subdocs in
      if (16 <? length ops)%nat then
        ([], inl (errorsNew "too many lookupIn ops specified, maximum 16"))
      else
        let request := {| co_Key := key; co_Ops := subdocs;
                          co_CollectionName := c_name c; co_ScopeName := c_scopeName c |} in
        ([request], finish subdocs opts (agent request))
  end.

(** [Collection.LookupIn]. *)
Definition LookupIn (c : Collection) (key : string) (ops : list LookupInOp)
    (opts : option LookupInOptions) : list coreLookupInOptions * (error + LookupInResult) :=
  let opts := default {| lio_Context := None; lio_Timeout := 0; WithExpiry := false |} opts in
  let '(sent, res) := lookupIn c key ops opts in
  match res with
  | inl err => (sent, inl err)
  | inr res => (sent, inr res)
  end.
End SubDoc.

Arguments Build_Collection {kvReply} _ _ _.
Arguments getKvProvider {kvReply} _.
Arguments c_name {kvReply} _.
Arguments c_scopeName {kvReply} _.

(** ** Vocabulary of the statements *)

(** The error of a Go result pair [(value, err)], if any. *)
Definition errorOf {A : Type} (r : error + A) : option error :=
  match r with
  | inl err => Some err
  | inr _ => None
  end.

(** An operation that sent [sent] to [engine] and returned [err] returns
    a [bucketManagerError] exactly when the engine answered its request
    with a status other than [success] and the body of that answer could
    be read; the error then carries the body and the status. *)
Definition bucketErrorExactly (engine : httpProvider) (success : Z)
    (sent : list HttpRequest) (err : option error) : Prop :=
  ∀ message statusCode,
    err = Some (bucketManagerError message statusCode) ↔
    ∃ req resp, sent = [req] ∧ engine req = inr resp
                ∧ StatusCode resp = statusCode ∧ statusCode ≠ success
                ∧ RespBody resp = BodyData message.

(** When the status is not [success] and the body cannot be read, the
    operation returns the error of the read. *)
Definition readErrorReturned (engine : httpProvider) (success : Z)
    (sent : list HttpRequest) (err : option error) : Prop :=
  ∀ req resp what,
    sent = [req] → engine req = inr resp → StatusCode resp ≠ success →
    RespBody resp = BodyFails what → err = Some (ioError what).

(** [flags] contains the flag [f]: all bits of [f] are set. *)
Definition hasFlag (flags f : Z) : Prop := Z.land flags f = f.

(** [q] is the first entry of [indexes] that bears the name [name]. *)
Definition firstNamed (indexes : list QueryIndex) (name : string) (q : QueryIndex) : Prop :=
  ∃ before after,
    indexes = before ++ q :: after ∧ qi_Name q = name
    ∧ Forall (λ p, qi_Name p ≠ name) before.

(** No entry of [indexes] bears the name [name]. *)
Definition absent (indexes : list QueryIndex) (name : string) : Prop :=
  Forall (λ p, qi_Name p ≠ name) indexes.

(** An event after which the loop of [WatchIndexes] goes on: a sleep, or
    a poll that found an entry for every watched name, not all online. *)
Definition goesOn (watchList : list string) (e : watchEvent) : Prop :=
  match e with
  | Slept _ => True
  | Polled _ (inr indexes) => checkIndexesActive indexes watchList = inr false
  | Polled _ (inl _) => False
  end.

(** What [WatchIndexes] returns when the poll with the given outcome is
    its last one. *)
Definition verdict (watchList : list string) (outcome : error + list QueryIndex)
    : option error :=
  match outcome with
  | inl err => Some err
  | inr indexes =>
      match checkIndexesActive indexes watchList with
      | inl err => Some err
      | inr true => None
      | inr false => Some (timeoutError "")
      end
  end.

(** The keys that only the steps for [ScanConsistency], [Reduce], [Group],
    [GroupLevel] and [Raw] write. *)
Definition coreKey (k : string) : Prop :=
  k = "stale" ∨ k = "reduce" ∨ k = "group" ∨ k = "group_level".

(** The zero value of [ViewOptions]. *)
Definition zeroViewOptions : ViewOptions :=
  {| ScanConsistency := 0; Skip := 0; Limit := 0; Order := 0;
     Reduce := false; Group := false; GroupLevel := 0;
     Key := AnyNil; Keys := []; StartKey := AnyNil; EndKey := AnyNil;
     InclusiveEnd := false; StartKeyDocID := ""; EndKeyDocID := "";
     Namespace := false; Raw := ∅; OnError := 0; Debug := false |}.

(** The JSON encoder refuses the value. *)
Definition refused (marshalJson : any → string + string) (value : any) : Prop :=
  ∃ what, marshalJson value = inl what.

(** ** Further embedded functions *)

(** *** Mutations ([Collection.mutate]) *)

(** [MutateInOptions], with the fields [mutate] reads. *)
Record MutateInOptions : Type := {
  mio_Expiration : Z;
  mio_Cas : Z;
  mio_DurabilityLevel : Z;
  InsertDocument : bool;
  UpsertDocument : bool;
  AccessDeleted : bool
}.

(** [gocbcore.MutateInOptions]: the request handed to the kv provider. *)
Record coreMutateInOptions : Type := {
  cm_Key : string;
  cm_Flags : Z;
  cm_Cas : Z;
  cm_Ops : list SubDocOp;
  cm_Expiry : Z;
  cm_CollectionName : string;
  cm_ScopeName : string;
  cm_DurabilityLevel : Z;
  cm_DurabilityLevelTimeout : Z
}.

(** The byte of the character "[". *)
Definition openBracket : Ascii.ascii := Ascii.ascii_of_nat 91.

(** The string without its last byte, [s[:len(s)-1]]. *)
Fixpoint dropLastByte (s : string) : string :=
  match s with
  | EmptyString => EmptyString
  | String c EmptyString => EmptyString
  | String c rest => String c (dropLastByte rest)
  end.

Section Mutate.
(** The JSON serializer of the options ([Serialize]); the document flag
    constants and [Collection.durabilityTimeout], which are declared in
    files that are not among the sources; and what follows the dispatch
    (the callback and [ctrl.wait]). *)
Variable Serialize : any → string + string.
Variable SubdocDocFlagMkDoc : Z.
Variable SubdocDocFlagReplaceDoc : Z.
Variable SubdocDocFlagAccessDeleted : Z.
Variable durabilityTimeout : Context → Z → bool * Z.
Variable mutReply : Type.
Variable MutateInResult : Type.
Variable finishMutation : Context → bool → mutReply → error + MutateInResult.

(** [Collection.encodeMultiArray]: the serialized array without its
    first and last byte. *)
Definition encodeMultiArray (v : any) : error + string :=
  match Serialize v with
  | inl what => inl (jsonError what)
  | inr out =>
      match out with
      | String first rest =>
          if (String.length out <? 2)%nat || negb (Ascii.eqb first openBracket)
          then inl (errorsNew "not a JSON array")
          else inr (dropLastByte rest)
      | EmptyString => inl (errorsNew "not a JSON array")
      end
  end.

(** The loop of [mutate] over the operations: an operation without a
    value is passed on as it is, the value of any other is serialized,
    as the elements of an array when [MultiValue] is set; the first
    value that cannot be serialized ends the loop with its error. *)
Fixpoint encodeOps (ops : list MutateInOp) (subdocs : list SubDocOp)
    : error + list SubDocOp :=
  match ops with
  | [] => inr subdocs
  | op :: ops' =>
      let op := mutate_op op in
      if negb (notNil (Value op)) then
        encodeOps ops'
          (subdocs ++ [{| sd_Op := Op op; sd_Flags := Flags op; sd_Path := OpPath op;
                          sd_Value := "" |}])
      else
        let marshaled :=
          if MultiValue op then encodeMultiArray (Value op)
          else match Serialize (Value op) with
               | inl what => inl (jsonError what)
               | inr out => inr out
               end in
        match marshaled with
        | inl err => inl err
        | inr marshaled =>
            encodeOps ops'
              (subdocs ++ [{| sd_Op := Op op; sd_Flags := Flags op; sd_Path := OpPath op;
                              sd_Value := marshaled |}])
        end
  end.

(** The collection as [mutate] uses it: the [MutateInEx] of its kv
    provider, if one can be had, and its names. *)
Record MutationCollection : Type := {
  mc_getKvProvider : error + (coreMutateInOptions → mutReply);
  mc_name : string;
  mc_scopeName : string
}.

(** [Collection.mutate]: the requests dispatched and the result. *)
Definition mutate (c : MutationCollection) (ctx : Context) (now : Z) (key : string)
    (ops : list MutateInOp) (opts : MutateInOptions)
    : list coreMutateInOptions * (error + MutateInResult) :=
  match mc_getKvProvider c with
  | inl err => ([], inl err)
  | inr agent =>
      let isInsertDocument := InsertDocument opts in
      let flags := 0 in
      let flags := if InsertDocument opts then Z.lor flags SubdocDocFlagMkDoc else flags in
      let flags := if UpsertDocument opts then Z.lor flags SubdocDocFlagReplaceDoc
                   else flags in
      let flags := if AccessDeleted opts then Z.lor flags SubdocDocFlagAccessDeleted
                   else flags in
      match encodeOps ops [] with
      | inl err => ([], inl err)
      | inr subdocs =>
          let '(coerced, timeout) := durabilityTimeout ctx (mio_DurabilityLevel opts) in
          let ctx := if coerced then WithTimeout ctx (timeout * Millisecond) now else ctx in
          let request :=
            {| cm_Key := key; cm_Flags := flags; cm_Cas := mio_Cas opts;
               cm_Ops := subdocs; cm_Expiry := mio_Expiration opts;
               cm_CollectionName := mc_name c; cm_ScopeName := mc_scopeName c;
               cm_DurabilityLevel := mio_DurabilityLevel opts;
               cm_DurabilityLevelTimeout := timeout |} in
          ([request], finishMutation ctx isInsertDocument (agent request))
      end
  end.
End Mutate.

Arguments mc_getKvProvider {mutReply} _.
Arguments mc_name {mutReply} _.
Arguments mc_scopeName {mutReply} _.

(** *** Query index management *)

(** [strings.Contains]. *)
Fixpoint Contains (s substr : string) : bool :=
  if HasPrefix s substr then true
  else match s with
       | EmptyString => false
       | String _ s' => Contains s' substr
       end.

(** One call of [qm.executeQuery]: the statement, its positional
    parameters, and the retry strategy and context of its options. *)
Record queryCall : Type := {
  qc_statement : string;
  qc_params : list string;
  qc_RetryStrategy : option RetryStrategy;
  qc_Context : option Context;
  qc_ReadOnly : bool
}.

(** What an index operation fails with: a [queryIndexError] with its
    three fields (the constructor of [error] carries the two that
    [checkIndexesActive] sets), or any other error. *)
Inductive indexFailure : Type :=
  | typedIndexError (statusCode : Z) (indexMissing : bool) (message : string)
  | otherIndexError (err : error).

Record createQueryIndexOptions : Type := {
  cq_Context : option Context;
  cq_RetryStrategy : option RetryStrategy;
  cq_IgnoreIfExists : bool;
  cq_Deferred : bool
}.

(** [CreateQueryIndexOptions] and [CreatePrimaryQueryIndexOptions]; the
    former has no [CustomName]. *)
Record CreateQueryIndexOptions : Type := {
  ci_Timeout : Duration;
  ci_Context : option Context;
  ci_RetryStrategy : option RetryStrategy;
  ci_IgnoreIfExists : bool;
  ci_Deferred : bool;
  ci_CustomName : string
}.

Definition zeroCreateOptions : CreateQueryIndexOptions :=
  {| ci_Timeout := 0; ci_Context := None; ci_RetryStrategy := None;
     ci_IgnoreIfExists := false; ci_Deferred := false; ci_CustomName := "" |}.

Record dropQueryIndexOptions : Type := {
  dq_Context : option Context;
  dq_RetryStrategy : option RetryStrategy;
  dq_IgnoreIfNotExists : bool
}.

(** [DropQueryIndexOptions] and [DropPrimaryQueryIndexOptions]; the
    former has no [CustomName]. *)
Record DropQueryIndexOptions : Type := {
  di_Timeout : Duration;
  di_Context : option Context;
  di_RetryStrategy : option RetryStrategy;
  di_IgnoreIfNotExists : bool;
  di_CustomName : string
}.

Definition zeroDropOptions : DropQueryIndexOptions :=
  {| di_Timeout := 0; di_Context := None; di_RetryStrategy := None;
     di_IgnoreIfNotExists := false; di_CustomName := "" |}.

(** The double quote character as a string. *)
Definition doubleQuote : string := String (Ascii.ascii_of_nat 34) EmptyString.

(** The loop that appends the names in back quotes, separated by ", ";
    [i] is the loop index. *)
Fixpoint appendQuoted (names : list string) (i : nat) (qs : string) : string :=
  match names with
  | [] => qs
  | name :: names' =>
      let qs := if (0 <? i)%nat then qs +:+ ", " else qs in
      appendQuoted names' (S i) (qs +:+ "`" +:+ name +:+ "`")
  end.

Section QueryIndexes.
(** [qm.executeQuery]: the error it fails with is known by its text. *)
Variable executeQuery : queryCall → string + QueryResult.

(** [QueryIndexManager.createIndexWhere]: the calls made and the result. *)
Definition createIndexWhere (bucketName indexName : string) (fields : list string)
    (opts : createQueryIndexOptions) (condition : string)
    : list queryCall * option indexFailure :=
  let qs := "" in
  let qs := if Nat.eqb (length fields) 0 then qs +:+ "CREATE PRIMARY INDEX"
            else qs +:+ "CREATE INDEX" in
  let qs := if strNe indexName "" then qs +:+ " `" +:+ indexName +:+ "`" else qs in
  let qs := qs +:+ " ON `" +:+ bucketName +:+ "`" in
  let qs := if (0 <? length fields)%nat
            then (appendQuoted fields 0 (qs +:+ " (")) +:+ ")"
            else qs in
  let qs := if strNe condition "" then qs +:+ " WHERE " +:+ condition else qs in
  let qs := if cq_Deferred opts
            then qs +:+ " WITH {" +:+ doubleQuote +:+ "defer_build" +:+ doubleQuote
                 +:+ ": true}"
            else qs in
  let call := {| qc_statement := qs; qc_params := [];
                 qc_RetryStrategy := cq_RetryStrategy opts;
                 qc_Context := cq_Context opts; qc_ReadOnly := false |} in
  ([call],
   match executeQuery call with
   | inl message =>
       if Contains message "already exist" then
         if cq_IgnoreIfExists opts then None
         else Some (typedIndexError 409 false message)
       else Some (otherIndexError (engineError message))
   | inr rows' =>
       match closeError rows' with
       | Some err => Some (otherIndexError err)
       | None => None
       end
   end).

(** [QueryIndexManager.CreateIndex]. *)
Definition CreateIndex (qm : QueryIndexManager) (bucketName indexName : string)
    (fields : list string) (opts : option CreateQueryIndexOptions) (now : Z)
    : list queryCall * option indexFailure :=
  if String.eqb indexName "" then
    ([], Some (otherIndexError (invalidArgumentsError "an invalid index name was specified")))
  else if (length fields <=? 0)%nat then
    ([], Some (otherIndexError
                 (invalidArgumentsError "you must specify at least one field to index")))
  else
    let opts := default zeroCreateOptions opts in
    let ctx := contextFromMaybeTimeout (ci_Context opts) (ci_Timeout opts)
                 (qm_globalTimeout qm) now in
    createIndexWhere bucketName indexName fields
      {| cq_IgnoreIfExists := ci_IgnoreIfExists opts; cq_Deferred := ci_Deferred opts;
         cq_Context := Some ctx; cq_RetryStrategy := ci_RetryStrategy opts |} "".

(** [QueryIndexManager.CreateIndexWhere]; it passes no retry strategy on. *)
Definition CreateIndexWhere (qm : QueryIndexManager) (bucketName indexName : string)
    (fields : list string) (opts : option CreateQueryIndexOptions) (whereFormat : string)
    (now : Z) : list queryCall * option indexFailure :=
  if String.eqb indexName "" then
    ([], Some (otherIndexError (invalidArgumentsError "an invalid index name was specified")))
  else if (length fields <=? 0)%nat then
    ([], Some (otherIndexError
                 (invalidArgumentsError "you must specify at least one field to index")))
  else
    let opts := default zeroCreateOptions opts in
    let ctx := contextFromMaybeTimeout (ci_Context opts) (ci_Timeout opts)
                 (qm_globalTimeout qm) now in
    createIndexWhere bucketName indexName fields
      {| cq_IgnoreIfExists := ci_IgnoreIfExists opts; cq_Deferred := ci_Deferred opts;
         cq_Context := Some ctx; cq_RetryStrategy := None |} whereFormat.

(** [QueryIndexManager.CreatePrimaryIndex]. *)
Definition CreatePrimaryIndex (qm : QueryIndexManager) (bucketName : string)
    (opts : option CreateQueryIndexOptions) (now : Z)
    : list queryCall * option indexFailure :=
  let opts := default zeroCreateOptions opts in
  let ctx := contextFromMaybeTimeout (ci_Context opts) (ci_Timeout opts)
               (qm_globalTimeout qm) now in
  createIndexWhere bucketName (ci_CustomName opts) []
    {| cq_IgnoreIfExists := ci_IgnoreIfExists opts; cq_Deferred := ci_Deferred opts;
       cq_Context := Some ctx; cq_RetryStrategy := ci_RetryStrategy opts |} "".

(** [QueryIndexManager.dropIndex]. *)
Definition dropIndex (bucketName indexName : string) (opts : dropQueryIndexOptions)
    : list queryCall * option indexFailure :=
  let qs := "" in
  let qs := if String.eqb indexName ""
            then qs +:+ "DROP PRIMARY INDEX ON `" +:+ bucketName +:+ "`"
            else qs +:+ "DROP INDEX `" +:+ bucketName +:+ "`.`" +:+ indexName +:+ "`" in
  let call := {| qc_statement := qs; qc_params := [];
                 qc_RetryStrategy := dq_RetryStrategy opts;
                 qc_Context := dq_Context opts; qc_ReadOnly := false |} in
  ([call],
   match executeQuery call with
   | inl message =>
       if Contains message "not found" then
         if dq_IgnoreIfNotExists opts then None
         else Some (typedIndexError 0 true message)
       else Some (otherIndexError (engineError message))
   | inr rows' =>
       match closeError rows' with
       | Some err => Some (otherIndexError err)
       | None => None
       end
   end).

(** [QueryIndexManager.DropIndex]. *)
Definition DropIndex (qm : QueryIndexManager) (bucketName indexName : string)
    (opts : option DropQueryIndexOptions) (now : Z)
    : list queryCall * option indexFailure :=
  if String.eqb indexName "" then
    ([], Some (otherIndexError (invalidArgumentsError "an invalid index name was specified")))
  else
    let opts := default zeroDropOptions opts in
    let ctx := contextFromMaybeTimeout (di_Context opts) (di_Timeout opts)
                 (qm_globalTimeout qm) now in
    dropIndex bucketName indexName
      {| dq_Context := Some ctx; dq_IgnoreIfNotExists := di_IgnoreIfNotExists opts;
         dq_RetryStrategy := di_RetryStrategy opts |}.

(** [QueryIndexManager.DropPrimaryIndex]. *)
Definition DropPrimaryIndex (qm : QueryIndexManager) (bucketName : string)
    (opts : option DropQueryIndexOptions) (now : Z)
    : list queryCall * option indexFailure :=
  let opts := default zeroDropOptions opts in
  let ctx := contextFromMaybeTimeout (di_Context opts) (di_Timeout opts)
               (qm_globalTimeout qm) now in
  dropIndex bucketName (di_CustomName opts)
    {| dq_IgnoreIfNotExists := di_IgnoreIfNotExists opts; dq_Context := Some ctx;
       dq_RetryStrategy := di_RetryStrategy opts |}.

(** [QueryIndexManager.getAllIndexes] with the query it runs. *)
Definition queryAllIndexes (qm : QueryIndexManager) (bucketName : string)
    (opts : ManagementOptions) (now : Z) : list queryCall * (error + list QueryIndex) :=
  let ctx := contextFromMaybeTimeout (OptContext opts) (Timeout opts)
               (qm_globalTimeout qm) now in
  let call := {| qc_statement := "SELECT `indexes`.* FROM system:indexes WHERE keyspace_id=?";
                 qc_params := [bucketName];
                 qc_RetryStrategy := OptRetryStrategy opts;
                 qc_Context := Some ctx; qc_ReadOnly := true |} in
  ([call],
   getAllIndexes match executeQuery call with
                 | inl message => inl (engineError message)
                 | inr res => inr res
                 end).

(** The loop of [BuildDeferredIndexes] that picks the names of the
    indexes in state "deferred" or "pending". *)
Fixpoint deferredNames (indexList : list QueryIndex) : list string :=
  match indexList with
  | [] => []
  | index :: indexList' =>
      if String.eqb (qi_State index) "deferred" || String.eqb (qi_State index) "pending"
      then qi_Name index :: deferredNames indexList'
      else deferredNames indexList'
  end.

(** [QueryIndexManager.BuildDeferredIndexes]; a nil list is the empty
    list. *)
Definition BuildDeferredIndexes (qm : QueryIndexManager) (bucketName : string)
    (opts : option ManagementOptions) (now : Z)
    : list queryCall * (error + list string) :=
  let opts := orZero opts in
  let ctx := contextFromMaybeTimeout (OptContext opts) (Timeout opts)
               (qm_globalTimeout qm) now in
  let '(calls, listed) :=
    queryAllIndexes qm bucketName
      {| Timeout := 0; OptContext := Some ctx; OptRetryStrategy := OptRetryStrategy opts |}
      now in
  match listed with
  | inl err => (calls, inl err)
  | inr indexList =>
      let deferredList := deferredNames indexList in
      if Nat.eqb (length deferredList) 0 then (calls, inr [])
      else
        let qs := "" in
        let qs := qs +:+ "BUILD INDEX ON `" +:+ bucketName +:+ "`(" in
        let qs := appendQuoted deferredList 0 qs in
        let qs := qs +:+ ")" in
        let call := {| qc_statement := qs; qc_params := [];
                       qc_RetryStrategy := OptRetryStrategy opts;
                       qc_Context := Some ctx; qc_ReadOnly := false |} in
        (calls ++ [call],
         match executeQuery call with
         | inl message => inl (engineError message)
         | inr rows' =>
             match closeError rows' with
             | Some err => inl err
             | None => inr deferredList
             end
         end)
  end.
End QueryIndexes.

(** *** Users ([transformUserMetadataJson]) *)

Record Role : Type := {
  role_Name : string;
  role_Bucket : string
}.

Record Origin : Type := {
  origin_Type : string;
  origin_Name : string
}.

(** A nil slice of origins is [None]; it differs from an empty one. *)
Record RoleAndOrigins : Type := {
  ro_Role : Role;
  ro_Origins : option (list Origin)
}.

Record User : Type := {
  Username : string;
  DisplayName : string;
  Roles : list Role;
  Groups : list string;
  Password : string
}.

(** [PasswordChanged] is a [time.Time], here its text. *)
Record UserAndMetadata : Type := {
  Domain : string;
  um_User : User;
  EffectiveRoles : list Role;
  EffectiveRolesAndOrigins : list RoleAndOrigins;
  ExternalGroups : list string;
  PasswordChanged : string
}.

Record roleOriginsJson : Type := {
  rj_RoleName : string;
  rj_BucketName : string;
  rj_Origins : option (list Origin)
}.

Record userMetadataJson : Type := {
  uj_ID : string;
  uj_Name : string;
  uj_Roles : list roleOriginsJson;
  uj_Groups : list string;
  uj_Domain : string;
  uj_ExternalGroups : list string;
  uj_PasswordChanged : string
}.

(** The inner loop of [transformUserMetadataJson]: is there an origin of
    type "user" (the loop appends the role once and breaks). *)
Fixpoint hasUserOrigin (origins : list Origin) : bool :=
  match origins with
  | [] => false
  | origin :: origins' =>
      if String.eqb (origin_Type origin) "user" then true else hasUserOrigin origins'
  end.

(** The loop of [transformUserMetadataJson] over the roles, with its
    three accumulators. *)
Fixpoint transformRoles (rolesData : list roleOriginsJson)
    (roles effectiveRoles : list Role) (effectiveRolesAndOrigins : list RoleAndOrigins)
    : list Role * list Role * list RoleAndOrigins :=
  match rolesData with
  | [] => (roles, effectiveRoles, effectiveRolesAndOrigins)
  | roleData :: rolesData' =>
      let role := {| role_Name := rj_RoleName roleData;
                     role_Bucket := rj_BucketName roleData |} in
      let effectiveRoles := effectiveRoles ++ [role] in
      let effectiveRolesAndOrigins :=
        effectiveRolesAndOrigins
          ++ [{| ro_Role := role; ro_Origins := rj_Origins roleData |}] in
      let roles :=
        match rj_Origins roleData with
        | None => roles ++ [role]
        | Some _ => roles
        end in
      let roles :=
        if hasUserOrigin (default [] (rj_Origins roleData)) then roles ++ [role]
        else roles in
      transformRoles rolesData' roles effectiveRoles effectiveRolesAndOrigins
  end.

(** [transformUserMetadataJson]. *)
Definition transformUserMetadataJson (userData : userMetadataJson) : UserAndMetadata :=
  let '(roles, effectiveRoles, effectiveRolesAndOrigins) :=
    transformRoles (uj_Roles userData) [] [] [] in
  {| Domain := uj_Domain userData;
     um_User := {| Username := uj_ID userData; DisplayName := uj_Name userData;
                   Roles := roles; Groups := uj_Groups userData; Password := "" |};
     EffectiveRoles := effectiveRoles;
     EffectiveRolesAndOrigins := effectiveRolesAndOrigins;
     ExternalGroups := uj_ExternalGroups userData;
     PasswordChanged := uj_PasswordChanged userData |}.

(** *** Listing design documents *)

(** A Go call returns or panics. *)
Inductive outcome (A : Type) : Type :=
  | Returned (result : A)
  | Panicked (what : string).
Arguments Returned {A} _.
Arguments Panicked {A} _.

(** A row of the listing as the JSON decoder fills it: the id of the
    document's metadata ([Doc.Meta.Id]) and the document ([Doc.Json])
    with its name and views. *)
Record ddocRow : Type := {
  row_Id : string;
  row_Name : string;
  row_Views : gmap string View
}.

(** The loop of [GetAllDesignDocuments] over the rows; [Id[8:]] panics
    on an id of fewer than 8 bytes. *)
Fixpoint selectDesignDocuments (namespace : DesignDocumentNamespace) (rows' : list ddocRow)
    (ddocs : list DesignDocument) : outcome (list DesignDocument) :=
  match rows' with
  | [] => Returned ddocs
  | ddocData :: rows'' =>
      let isProd := negb (HasPrefix (row_Name ddocData) "dev_") in
      if Bool.eqb isProd namespace then
        if (String.length (row_Id ddocData) <? 8)%nat then
          Panicked "slice bounds out of range"
        else
          let name := TrimPrefix (dropString 8 (row_Id ddocData)) "dev_" in
          selectDesignDocuments namespace rows''
            (ddocs ++ [{| dd_Name := name; dd_Views := row_Views ddocData |}])
      else selectDesignDocuments namespace rows'' ddocs
  end.

Section ListDesignDocuments.
Variable decodeRows : bodyStream → string + list ddocRow.

(** [ViewIndexManager.GetAllDesignDocuments]; its request sets no
    [UniqueId]. *)
Definition GetAllDesignDocuments (vm : ViewIndexManager)
    (namespace : DesignDocumentNamespace) (opts : option ManagementOptions) (now : Z)
    : list HttpRequest * outcome (error + list DesignDocument) :=
  let opts := orZero opts in
  let ctx := contextFromMaybeTimeout (OptContext opts) (Timeout opts) (vm_globalTimeout vm) now in
  let retryStrategy := vm_defaultRetryStrategy vm in
  let retryStrategy :=
    match OptRetryStrategy opts with
    | None => newRetryStrategyWrapper (OptRetryStrategy opts)
    | Some _ => retryStrategy
    end in
  let req := {| Service := MgmtService;
                Path := "/pools/default/buckets/" +:+ vm_bucketName vm +:+ "/ddocs";
                Method := "GET";
                Body := "";
                ContentType := "";
                ReqContext := ctx;
                IsIdempotent := true;
                ReqRetryStrategy := retryStrategy;
                UniqueId := "" |} in
  ([req],
   match vm_httpClient vm req with
   | inl DeadlineExceeded => Returned (inl (timeoutError "view"))
   | inl (EngineFailed what) => Returned (inl (engineError what))
   | inr resp =>
       if negb (StatusCode resp =? 200) then
         match ReadAll (RespBody resp) with
         | inl err => Returned (inl err)
         | inr data => Returned (inl (viewIndexError (StatusCode resp) data false))
         end
       else
         match decodeRows (RespBody resp) with
         | inl what => Returned (inl (jsonError what))
         | inr rows' =>
             match selectDesignDocuments namespace rows' [] with
             | Panicked what => Panicked what
             | Returned ddocs => Returned (inr ddocs)
             end
         end
   end).
End ListDesignDocuments.

(** *** Vocabulary of the further statements *)

(** The engine operation [sd] carries the mutation [op]: the same
    opcode, flags and path, and as value nothing when [op] has no value,
    otherwise the serialized value, without the enclosing brackets when
    [MultiValue] is set. *)
Definition encodes (Serialize : any → string + string) (op : MutateInOp) (sd : SubDocOp)
    : Prop :=
  sd_Op sd = Op (mutate_op op)
  ∧ sd_Flags sd = Flags (mutate_op op)
  ∧ sd_Path sd = OpPath (mutate_op op)
  ∧ (if notNil (Value (mutate_op op))
     then if MultiValue (mutate_op op)
          then encodeMultiArray Serialize (Value (mutate_op op)) = inr (sd_Value sd)
          else Serialize (Value (mutate_op op)) = inr (sd_Value sd)
     else sd_Value sd = "").

(** The names in back quotes, separated by ", ". *)
Definition quotedList (names : list string) : string :=
  String.concat ", " (map (λ name, "`" +:+ name +:+ "`") names).

(** The role of an entry of the user's JSON. *)
Definition roleOf (roleData : roleOriginsJson) : Role :=
  {| role_Name := rj_RoleName roleData; role_Bucket := rj_BucketName roleData |}.

(** The role is the user's own: the entry has no origins at all, or one
    of its origins has type "user". *)
Definition ownRole (roleData : roleOriginsJson) : Prop :=
  rj_Origins roleData = None
  ∨ ∃ origins origin, rj_Origins roleData = Some origins ∧ origin ∈ origins
                      ∧ origin_Type origin = "user".

(* ===================================================================== *)
(** * Part II: theorems                                                   *)
(* ===================================================================== *)

(** ** Strings and design document names *)

Lemma HasPrefix_app (p s : string) : HasPrefix (p +:+ s) p = true.
Proof.
  induction p as [|c p IH]; simpl; [done|].
  by rewrite Ascii.eqb_refl.
Qed.

Lemma dropString_app (p s : string) : dropString (String.length p) (p +:+ s) = s.
Proof. induction p as [|c p IH]; simpl; done. Qed.

(** [TrimPrefix] removes exactly the prefix it is given. *)
Lemma TrimPrefix_app (p s : string) : TrimPrefix (p +:+ s) p = s.
Proof. unfold TrimPrefix. by rewrite HasPrefix_app, dropString_app. Qed.

Lemma TrimPrefix_no_prefix (p s : string) : HasPrefix s p = false → TrimPrefix s p = s.
Proof. unfold TrimPrefix. by intros ->. Qed.

(** In the development namespace the name gets the prefix exactly when
    it does not have it yet, so the result always has it. *)
Lemma ddocName_development (name : string) :
  ddocName name DevelopmentDesignDocumentNamespace =
    (if HasPrefix name "dev_" then name else "dev_" +:+ name)
  ∧ HasPrefix (ddocName name DevelopmentDesignDocumentNamespace) "dev_" = true.
Proof.
  unfold ddocName, DevelopmentDesignDocumentNamespace.
  destruct (HasPrefix name "dev_") eqn:E; simpl; [done|].
  split; [done|]. apply (HasPrefix_app "dev_" name).
Qed.

(** A name without the prefix is left alone in the production namespace. *)
Lemma ddocName_production_no_prefix (name : string) :
  HasPrefix name "dev_" = false →
  ddocName name ProductionDesignDocumentNamespace = name.
Proof. unfold ddocName, ProductionDesignDocumentNamespace. by intros ->. Qed.

(** C8 (the code departs from the claim).  The claim: in the production
    namespace [ddocName] removes exactly one leading "dev_" and leaves
    the rest of the name unchanged, so that for a name without the prefix
    the development name maps back to it.  The source trims with
    [strings.TrimLeft], whose second argument is a set of characters: it
    also eats the leading characters d, e, v and _ of the remainder.
    For "dev_views" it returns "iews" where [strings.TrimPrefix], which
    [getDesignDocument] uses on the same names, returns "views"; a second
    "dev_" is removed as well; and the round trip from "views" through
    the development namespace ends in "iews". *)
Theorem ddocName_production_trims_too_much :
  ddocName "dev_views" ProductionDesignDocumentNamespace = "iews"
  ∧ TrimPrefix "dev_views" "dev_" = "views"
  ∧ ddocName "dev_dev_x" ProductionDesignDocumentNamespace = "x"
  ∧ HasPrefix "views" "dev_" = false
  ∧ ddocName (ddocName "views" DevelopmentDesignDocumentNamespace)
      ProductionDesignDocumentNamespace = "iews".
Proof. repeat split; reflexivity. Qed.

(** [PublishDesignDocument] itself is not hit by the trimming: the name
    it hands to the production namespace was trimmed by [TrimPrefix] in
    [getDesignDocument].  For a name without the prefix it reads
    "/_design/dev_<name>" and, when it goes on to write, writes
    "/_design/<name>". *)
Lemma PublishDesignDocument_paths decode encode vm name opts now uid :
  HasPrefix name "dev_" = false →
  let sent := (PublishDesignDocument decode encode vm name opts now uid).1 in
  map (λ req, (Method req, Path req)) sent = [("GET", "/_design/dev_" +:+ name)]
  ∨ map (λ req, (Method req, Path req)) sent
    = [("GET", "/_design/dev_" +:+ name); ("PUT", "/_design/" +:+ name)].
Proof.
  intros Hname.
  assert (ddocName name false = "dev_" +:+ name) as Hdev.
  { unfold ddocName. by rewrite Hname. }
  unfold PublishDesignDocument, getDesignDocument, upsertDesignDocument.
  cbn -[ddocName TrimPrefix String.append]. rewrite !Hdev.
  destruct (vm_httpClient vm _) as [[|why]|[status body]];
    cbn -[ddocName TrimPrefix String.append]; [by left..|].
  destruct (negb (status =? 200)); cbn -[ddocName TrimPrefix String.append].
  { destruct (ReadAll body); cbn -[ddocName TrimPrefix String.append]; by left. }
  destruct (decode body) as [why|ddoc]; cbn -[ddocName TrimPrefix String.append];
    [by left|].
  destruct (encode _) as [why|data]; cbn -[ddocName TrimPrefix String.append];
    [by left|].
  right. rewrite (TrimPrefix_app "dev_" name).
  change true with ProductionDesignDocumentNamespace.
  by rewrite (ddocName_production_no_prefix name Hname).
Qed.

(** ** Watching indexes: the sleep intervals *)

Lemma wrap64_small (z : Z) : minInt64 ≤ z ≤ maxInt64 → wrap64 z = z.
Proof.
  unfold wrap64, minInt64, maxInt64. intros H.
  rewrite Z.mod_small by lia. lia.
Qed.

(** Whatever the interval was, from 0 up to the initial 50 ms, the next
    one is 1000 ns: half a second more is above the constant 1000. *)
Lemma next_interval (cur : Duration) :
  0 ≤ cur ≤ 50 * Millisecond →
  (if wrap64 (cur + 500 * Millisecond) >? 1000 then 1000
   else wrap64 (cur + 500 * Millisecond)) = 1000.
Proof.
  unfold Millisecond. intros H.
  rewrite wrap64_small by (unfold minInt64, maxInt64; lia).
  destruct (Z.gtb_spec (cur + 500 * 1000000) 1000); lia.
Qed.

(** Every sleep of the polling loop lasts 1000 ns. *)
Lemma watchLoop_sleeps (script : list queryReply) :
  ∀ bucketName ctx watchList cur now,
    0 ≤ cur ≤ 50 * Millisecond →
    Forall (λ d, d = 1000) (sleeps (watchLoop script bucketName ctx watchList cur now).1).
Proof.
  induction script as [|r script IH]; intros bucketName ctx watchList cur now Hcur; simpl.
  { constructor. }
  destruct (getAllIndexes (reply r)) as [err|indexes]; simpl; [constructor|].
  destruct (checkIndexesActive indexes watchList) as [err|[|]]; simpl; try constructor.
  rewrite (next_interval cur Hcur).
  destruct (match Deadline ctx with Some d => _ | None => false end); simpl; [constructor|].
  specialize (IH bucketName ctx watchList 1000 (now + latency r + 1000)).
  destruct (watchLoop script bucketName ctx watchList 1000 (now + latency r + 1000))
    as [events result]; simpl in *.
  constructor; [done|]. apply IH. unfold Millisecond. lia.
Qed.

(** In every run of [WatchIndexes] every sleep lasts 1000 ns, that is one
    microsecond. *)
Lemma WatchIndexes_sleeps qm bucketName watchList timeout opts now script :
  Forall (λ d, d = 1000)
    (sleeps (WatchIndexes qm bucketName watchList timeout opts now script).1).
Proof.
  unfold WatchIndexes.
  destruct (bool_decide _ && _); simpl; [constructor|].
  apply watchLoop_sleeps. unfold Millisecond. lia.
Qed.

(** C1 (the code departs from the claim).  The claim: the sleep intervals
    start from 50 ms, never decrease, and are capped at one second.  In
    the source the cap is the bare constant [1000] compared with a
    [time.Duration], which counts nanoseconds.  A run that watches the
    index "idx" of bucket "b" while it stays in state "building", under a
    75 s timeout, polls three times and sleeps 1000 ns after each poll:
    the interval drops from its initial 50 ms to one microsecond and
    stays there, far below the one second of the claim. *)
Theorem WatchIndexes_sleeps_one_microsecond :
  let building := {| qi_Name := "idx"; qi_IsPrimary := false; qi_Type := "gsi";
                     qi_State := "building"; qi_Keyspace := "b";
                     qi_Namespace := "default"; qi_IndexKey := ["f"] |} in
  let busy := {| latency := 2 * Millisecond;
                 reply := inr {| rows := [building]; closeError := None |} |} in
  let run := WatchIndexes
               {| qm_globalTimeout := 75 * Second;
                  qm_defaultRetryStrategy := newRetryStrategyWrapper None |}
               "b" ["idx"] {| wt_Timeout := 75 * Second; wt_Context := None |}
               None 0 [busy; busy; busy] in
  sleeps run.1 = [1000; 1000; 1000]
  ∧ run.2 = None
  ∧ 1000 * Nanosecond < 50 * Millisecond
  ∧ 1000 * Nanosecond < 1 * Second.
Proof. vm_compute. repeat split; reflexivity. Qed.

(** ** The retry strategy a request carries *)

(** Which strategy an operation puts into its request, given the option:
    the source tests [opts.RetryStrategy == nil] before it wraps. *)
Lemma GetBucket_request_strategy decodeBucketData bm bucketName opts now uid :
  map ReqRetryStrategy (GetBucket decodeBucketData bm bucketName opts now uid).1 =
    [match OptRetryStrategy (orZero opts) with
     | None => newRetryStrategyWrapper None
     | Some _ => bm_defaultRetryStrategy bm
     end].
Proof.
  unfold GetBucket, BucketManager_get; simpl.
  by destruct (OptRetryStrategy (orZero opts)).
Qed.

Lemma getDesignDocument_request_strategy decodeDesignDocument vm name namespace opts now uid :
  map ReqRetryStrategy (getDesignDocument decodeDesignDocument vm name namespace opts now uid).1 =
    [match OptRetryStrategy opts with
     | None => newRetryStrategyWrapper None
     | Some _ => vm_defaultRetryStrategy vm
     end].
Proof.
  unfold getDesignDocument; simpl.
  by destruct (OptRetryStrategy opts).
Qed.

(** C2 (the code departs from the claim).  The claim: a supplied
    [RetryStrategy] reaches the request wrapped, and without one the
    request carries the manager's default wrapper.  The source has the
    test the wrong way round ([if opts.RetryStrategy == nil] guards the
    wrapping).  With the default wrapper made from a strategy "default"
    and a caller who supplies "custom", the request of [GetBucket] and of
    [getDesignDocument] carries the default wrapper, not a wrapper of
    "custom"; and a caller who supplies nothing gets a wrapper of nil
    instead of the default. *)
Theorem GetBucket_drops_supplied_strategy :
  let default_ := newRetryStrategyWrapper (Some {| strategyName := "default" |}) in
  let custom := {| strategyName := "custom" |} in
  let engine : httpProvider := λ _, inl (EngineFailed "unreachable") in
  let bm := {| bm_httpClient := engine; bm_globalTimeout := 75 * Second;
               bm_defaultRetryStrategy := default_ |} in
  let vm := {| vm_bucketName := "b"; vm_httpClient := engine;
               vm_globalTimeout := 75 * Second;
               vm_defaultRetryStrategy := default_ |} in
  let supplied := {| Timeout := 0; OptContext := None; OptRetryStrategy := Some custom |} in
  let decodeNone {A} : bodyStream → string + A := λ _, inl "no body" in
  map ReqRetryStrategy (GetBucket decodeNone bm "b" (Some supplied) 0 "u1").1 = [default_]
  ∧ map ReqRetryStrategy (GetBucket decodeNone bm "b" None 0 "u2").1
      = [newRetryStrategyWrapper None]
  ∧ map ReqRetryStrategy
      (GetDesignDocument decodeNone vm "views" true (Some supplied) 0 "u3").1 = [default_]
  ∧ map ReqRetryStrategy
      (GetDesignDocument decodeNone vm "views" true None 0 "u4").1
      = [newRetryStrategyWrapper None]
  ∧ newRetryStrategyWrapper (Some custom) ≠ default_
  ∧ newRetryStrategyWrapper None ≠ default_.
Proof. vm_compute. repeat split; try reflexivity; discriminate. Qed.

(** ** Bucket manager: status codes and typed errors *)

(** The two statements, once the answer of the engine, the status test
    and the body have been told apart. *)
Ltac answer_known Hengine Hsent Hanswer :=
  injection Hsent as <-; rewrite Hengine in Hanswer;
  try discriminate Hanswer; injection Hanswer as <-; simpl in *; subst.

Ltac bucket_solve Hengine :=
  split;
  [ intros message statusCode; split;
    [ intros H; simpl in H; try discriminate H;
      inversion H; subst;
      eexists _, _; rewrite Hengine; repeat split; eauto
    | intros (req0 & resp0 & Hsent & Hanswer & Hcode & Hne & Hbody);
      answer_known Hengine Hsent Hanswer; try congruence; try contradiction ]
  | intros req0 resp0 cause Hsent Hanswer Hstatus Hbody;
    answer_known Hengine Hsent Hanswer; try congruence; try contradiction ].

Lemma GetBucket_errors decodeBucketData bm bucketName opts now uid :
  let run := GetBucket decodeBucketData bm bucketName opts now uid in
  bucketErrorExactly (bm_httpClient bm) 200 run.1 (errorOf run.2)
  ∧ readErrorReturned (bm_httpClient bm) 200 run.1 (errorOf run.2).
Proof.
  unfold GetBucket, BucketManager_get; simpl.
  match goal with |- context [bm_httpClient bm ?r] => set (req := r); clearbody req end.
  destruct (bm_httpClient bm req) as [[|why]|[status body]] eqn:Hengine; simpl.
  - bucket_solve Hengine.
  - bucket_solve Hengine.
  - destruct (Z.eqb_spec status 200); simpl.
    + destruct (decodeBucketData body); simpl; bucket_solve Hengine.
    + destruct body as [data|failure]; simpl; bucket_solve Hengine.
Qed.

Lemma GetAllBuckets_errors decodeBucketsData bm opts now uid :
  let run := GetAllBuckets decodeBucketsData bm opts now uid in
  bucketErrorExactly (bm_httpClient bm) 200 run.1 (errorOf run.2)
  ∧ readErrorReturned (bm_httpClient bm) 200 run.1 (errorOf run.2).
Proof.
  unfold GetAllBuckets; simpl.
  match goal with |- context [bm_httpClient bm ?r] => set (req := r); clearbody req end.
  destruct (bm_httpClient bm req) as [[|why]|[status body]] eqn:Hengine; simpl.
  - bucket_solve Hengine.
  - bucket_solve Hengine.
  - destruct (Z.eqb_spec status 200); simpl.
    + destruct (decodeBucketsData body); simpl; bucket_solve Hengine.
    + destruct body as [data|failure]; simpl; bucket_solve Hengine.
Qed.

(** An operation that stops at the validation of its settings sends
    nothing and returns [invalidArgumentsError]. *)
Lemma settingsToPostData_error settings err :
  settingsToPostData settings = inl err → ∃ message, err = invalidArgumentsError message.
Proof.
  unfold settingsToPostData. intros H.
  repeat match type of H with
         | (if ?c then _ else _) = _ => destruct c
         | match (if ?c then _ else _) with _ => _ end = _ => destruct c
         end; simplify_eq/=; eauto.
Qed.

Ltac bucket_unsent Hposts :=
  apply settingsToPostData_error in Hposts as [invalid ->];
  split;
  [ intros message statusCode; split;
    [ intros H; discriminate H
    | intros (req0 & resp0 & Hsent & _); discriminate Hsent ]
  | intros req0 resp0 cause Hsent; discriminate Hsent ].

Lemma CreateBucket_errors Encode bm settings opts now uid :
  let run := CreateBucket Encode bm settings opts now uid in
  bucketErrorExactly (bm_httpClient bm) 202 run.1 run.2
  ∧ readErrorReturned (bm_httpClient bm) 202 run.1 run.2.
Proof.
  unfold CreateBucket; simpl.
  destruct (settingsToPostData (cbs_BucketSettings settings)) as [err|posts] eqn:Hposts; simpl.
  { bucket_unsent Hposts. }
  match goal with |- context [bm_httpClient bm ?r] => set (req := r); clearbody req end.
  destruct (bm_httpClient bm req) as [[|why]|[status body]] eqn:Hengine; simpl.
  - bucket_solve Hengine.
  - bucket_solve Hengine.
  - destruct (Z.eqb_spec status 202); simpl.
    + bucket_solve Hengine.
    + destruct body as [data|failure]; simpl; bucket_solve Hengine.
Qed.

Lemma UpdateBucket_errors Encode bm settings opts now uid :
  let run := UpdateBucket Encode bm settings opts now uid in
  bucketErrorExactly (bm_httpClient bm) 200 run.1 run.2
  ∧ readErrorReturned (bm_httpClient bm) 200 run.1 run.2.
Proof.
  unfold UpdateBucket; simpl.
  destruct (settingsToPostData settings) as [err|posts] eqn:Hposts; simpl.
  { bucket_unsent Hposts. }
  match goal with |- context [bm_httpClient bm ?r] => set (req := r); clearbody req end.
  destruct (bm_httpClient bm req) as [[|why]|[status body]] eqn:Hengine; simpl.
  - bucket_solve Hengine.
  - bucket_solve Hengine.
  - destruct (Z.eqb_spec status 200); simpl.
    + bucket_solve Hengine.
    + destruct body as [data|failure]; simpl; bucket_solve Hengine.
Qed.

Lemma DropBucket_errors bm name opts now uid :
  let run := DropBucket bm name opts now uid in
  bucketErrorExactly (bm_httpClient bm) 200 run.1 run.2
  ∧ readErrorReturned (bm_httpClient bm) 200 run.1 run.2.
Proof.
  unfold DropBucket; simpl.
  match goal with |- context [bm_httpClient bm ?r] => set (req := r); clearbody req end.
  destruct (bm_httpClient bm req) as [[|why]|[status body]] eqn:Hengine; simpl.
  - bucket_solve Hengine.
  - bucket_solve Hengine.
  - destruct (Z.eqb_spec status 200); simpl.
    + bucket_solve Hengine.
    + destruct body as [data|failure]; simpl; bucket_solve Hengine.
Qed.

Lemma FlushBucket_errors bm name opts now uid :
  let run := FlushBucket bm name opts now uid in
  bucketErrorExactly (bm_httpClient bm) 200 run.1 run.2
  ∧ readErrorReturned (bm_httpClient bm) 200 run.1 run.2.
Proof.
  unfold FlushBucket; simpl.
  match goal with |- context [bm_httpClient bm ?r] => set (req := r); clearbody req end.
  destruct (bm_httpClient bm req) as [[|why]|[status body]] eqn:Hengine; simpl.
  - bucket_solve Hengine.
  - bucket_solve Hengine.
  - destruct (Z.eqb_spec status 200); simpl.
    + bucket_solve Hengine.
    + destruct body as [data|failure]; simpl; bucket_solve Hengine.
Qed.

(** C3 (amended).  Each of the six bucket manager operations returns a
    [bucketManagerError] exactly when the engine answers its request with
    a status other than the success code of the operation (202 for
    [CreateBucket], 200 for the others) and the body of the answer can be
    read; the error carries that body as its message and the status.
    When the body cannot be read, the error of the read is returned
    instead.  On the success code, when the engine fails, or when nothing
    is sent, no [bucketManagerError] is returned. *)
Theorem bucket_operations_typed_errors
    Encode decodeBucketData decodeBucketsData bm now uid :
  let engine := bm_httpClient bm in
  let typed success sent err :=
    bucketErrorExactly engine success sent err
    ∧ readErrorReturned engine success sent err in
  (∀ bucketName opts,
     let run := GetBucket decodeBucketData bm bucketName opts now uid in
     typed 200 run.1 (errorOf run.2))
  ∧ (∀ opts,
     let run := GetAllBuckets decodeBucketsData bm opts now uid in
     typed 200 run.1 (errorOf run.2))
  ∧ (∀ settings opts,
     let run := CreateBucket Encode bm settings opts now uid in
     typed 202 run.1 run.2)
  ∧ (∀ settings opts,
     let run := UpdateBucket Encode bm settings opts now uid in
     typed 200 run.1 run.2)
  ∧ (∀ name opts,
     let run := DropBucket bm name opts now uid in
     typed 200 run.1 run.2)
  ∧ (∀ name opts,
     let run := FlushBucket bm name opts now uid in
     typed 200 run.1 run.2).
Proof.
  cbv zeta. repeat apply conj; intros.
  all: first
    [ apply GetBucket_errors | apply GetAllBuckets_errors | apply CreateBucket_errors
    | apply UpdateBucket_errors | apply DropBucket_errors | apply FlushBucket_errors ].
Qed.

(** The theorem at work: the engine answers 404 with a readable body, and
    [DropBucket] returns the typed error with that body and status. *)
Lemma bucket_operations_typed_errors_witness :
  let resp := {| StatusCode := 404; RespBody := BodyData "Requested resource not found." |} in
  let bm := {| bm_httpClient := λ _, inr resp; bm_globalTimeout := 75 * Second;
               bm_defaultRetryStrategy := newRetryStrategyWrapper None |} in
  (DropBucket bm "travel" None 0 "u").2
    = Some (bucketManagerError "Requested resource not found." 404).
Proof.
  cbv zeta.
  pose (bm := {| bm_httpClient :=
                   λ _, inr {| StatusCode := 404;
                               RespBody := BodyData "Requested resource not found." |};
                 bm_globalTimeout := 75 * Second;
                 bm_defaultRetryStrategy := newRetryStrategyWrapper None |}).
  pose proof (bucket_operations_typed_errors
                (λ _, "") (λ _, inl "") (λ _, inl "") bm 0 "u") as H.
  cbv zeta in H.
  destruct H as (_ & _ & _ & _ & Hdrop & _).
  destruct (Hdrop "travel" None) as [Hexact _].
  apply Hexact.
  eexists _, _. repeat split; try reflexivity. discriminate.
Defined.

(** C3 as stated fails: the engine answers [GetBucket] with status 500,
    which is not the success code, but the body cannot be read; the
    operation returns the error of the read, not a [bucketManagerError]. *)
Lemma GetBucket_unreadable_body :
  let resp := {| StatusCode := 500; RespBody := BodyFails "connection reset" |} in
  let bm := {| bm_httpClient := λ _, inr resp; bm_globalTimeout := 75 * Second;
               bm_defaultRetryStrategy := newRetryStrategyWrapper None |} in
  let run := GetBucket (λ _, inl "no body") bm "travel" None 0 "u" in
  (∃ req, run.1 = [req] ∧ bm_httpClient bm req = inr resp)
  ∧ StatusCode resp ≠ 200
  ∧ run.2 = inl (ioError "connection reset")
  ∧ ∀ message statusCode, run.2 ≠ inl (bucketManagerError message statusCode).
Proof.
  cbv zeta. repeat split.
  - eexists. split; reflexivity.
  - discriminate.
  - discriminate.
Qed.

(** ** Watching indexes: when the loop ends *)

Lemma findIndex_None indexes name :
  findIndex indexes name = None ↔ absent indexes name.
Proof.
  unfold absent. induction indexes as [|p indexes IH]; simpl.
  { split; [constructor|done]. }
  destruct (String.eqb_spec (qi_Name p) name) as [Heq|Hne].
  - split; [done|]. intros H. by inversion H.
  - rewrite IH. split.
    + by constructor.
    + intros H. by inversion H.
Qed.

Lemma findIndex_Some indexes name q :
  findIndex indexes name = Some q ↔ firstNamed indexes name q.
Proof.
  unfold firstNamed. induction indexes as [|p indexes IH]; simpl.
  { split; [done|]. intros (before & after & H & _). by destruct before. }
  destruct (String.eqb_spec (qi_Name p) name) as [Heq|Hne].
  - split.
    + intros [= <-]. exists [], indexes. repeat split; [done|constructor].
    + intros (before & after & H & Hname & Hbefore).
      destruct before as [|p' before]; simpl in H.
      * by injection H as ->.
      * injection H as <- _. by inversion Hbefore.
  - rewrite IH. split.
    + intros (before & after & -> & Hname & Hbefore).
      exists (p :: before), after. repeat split; [done|by constructor].
    + intros (before & after & H & Hname & Hbefore).
      destruct before as [|p' before]; simpl in H.
      * injection H as -> _. done.
      * injection H as <- ->. exists before, after.
        repeat split; [done|]. by inversion Hbefore.
Qed.

Lemma collectIndexes_length_le indexes checkList :
  (length (collectIndexes indexes checkList) ≤ length checkList)%nat.
Proof.
  induction checkList as [|name checkList IH]; simpl; [lia|].
  destruct (findIndex indexes name); simpl; lia.
Qed.

(** Every name has an entry exactly when as many entries were collected
    as there are names. *)
Lemma collectIndexes_length indexes checkList :
  length (collectIndexes indexes checkList) = length checkList ↔
  Forall (λ name, findIndex indexes name ≠ None) checkList.
Proof.
  induction checkList as [|name checkList IH]; simpl.
  { split; [constructor|done]. }
  pose proof (collectIndexes_length_le indexes checkList) as Hle.
  destruct (findIndex indexes name) as [q|] eqn:Hfind; simpl.
  - split.
    + intros [= H]. constructor; [by rewrite Hfind|by apply IH].
    + intros H. inversion H; subst. f_equal. by apply IH.
  - split; [lia|]. intros H. inversion H as [|? ? Hname _]. by rewrite Hfind in Hname.
Qed.

Lemma allOnline_collect indexes checkList :
  allOnline (collectIndexes indexes checkList) = true ↔
  Forall (λ name, ∀ q, findIndex indexes name = Some q → qi_State q = "online") checkList.
Proof.
  induction checkList as [|name checkList IH]; simpl.
  { split; [constructor|done]. }
  destruct (findIndex indexes name) as [q|] eqn:Hfind; simpl.
  - unfold strNe. destruct (String.eqb_spec (qi_State q) "online") as [Hon|Hoff]; simpl.
    + rewrite IH. split.
      * intros H. constructor; [|done].
        intros q0 Hq0. rewrite Hfind in Hq0. by injection Hq0 as <-.
      * intros H. by inversion H.
    + split; [done|]. intros H. inversion H as [|? ? Hq _].
      destruct Hoff. by apply Hq.
  - rewrite IH. split.
    + intros H. constructor; [|done]. intros q0 Hq0. by rewrite Hfind in Hq0.
    + intros H. by inversion H.
Qed.

(** [checkIndexesActive] reports all indexes online exactly when every
    name of the check list has a first entry and that entry is online. *)
Lemma checkIndexesActive_true indexes checkList :
  checkIndexesActive indexes checkList = inr true ↔
  Forall (λ name, ∃ q, firstNamed indexes name q ∧ qi_State q = "online") checkList.
Proof.
  unfold checkIndexesActive.
  destruct (Nat.eqb_spec (length (collectIndexes indexes checkList)) (length checkList))
    as [Hlen|Hlen]; simpl.
  - apply collectIndexes_length in Hlen. split.
    + intros [= Hall]. apply allOnline_collect in Hall.
      rewrite Forall_forall in *. intros name Hin.
      destruct (findIndex indexes name) as [q|] eqn:Hfind; [|by destruct (Hlen name Hin)].
      exists q. split; [by apply findIndex_Some|]. by apply (Hall name Hin).
    + intros Hall. f_equal. apply allOnline_collect.
      rewrite Forall_forall in *. intros name Hin q Hfind.
      destruct (Hall name Hin) as (q' & Hfirst & Hon).
      apply findIndex_Some in Hfirst. congruence.
  - split; [done|]. intros Hall. destruct Hlen. apply collectIndexes_length.
    rewrite Forall_forall in *. intros name Hin.
    destruct (Hall name Hin) as (q & Hfirst & _).
    apply findIndex_Some in Hfirst. congruence.
Qed.

(** It reports a missing index exactly when some name of the check list
    has no entry at all. *)
Lemma checkIndexesActive_missing indexes checkList :
  (∃ name, name ∈ checkList ∧ absent indexes name) ↔
  checkIndexesActive indexes checkList
    = inl (queryIndexError true "the index specified does not exist").
Proof.
  unfold checkIndexesActive.
  destruct (Nat.eqb_spec (length (collectIndexes indexes checkList)) (length checkList))
    as [Hlen|Hlen]; simpl.
  - apply collectIndexes_length in Hlen. rewrite Forall_forall in Hlen.
    split; [|done]. intros (name & Hin & Habs).
    apply findIndex_None in Habs. by destruct (Hlen name Hin).
  - split; [done|]. intros _.
    rewrite collectIndexes_length in Hlen.
    apply not_Forall_Exists in Hlen; [|intros name; apply _].
    apply Exists_exists in Hlen as (name & Hin & Hnone).
    exists name. split; [done|]. apply findIndex_None.
    destruct (findIndex indexes name) as [q|] eqn:Hfind; [|done].
    destruct Hnone. simpl. by rewrite Hfind.
Qed.

(** The shape of a run of the loop: polls after which it goes on, each
    followed by a sleep, and then either the script ends or one last poll
    decides the result. *)
Lemma watchLoop_shape (script : list queryReply) :
  ∀ bucketName ctx watchList cur now,
    let run := watchLoop script bucketName ctx watchList cur now in
    (run.2 = None ∧ Forall (goesOn watchList) run.1)
    ∨ (∃ earlier outcome,
         run.1 = earlier ++ [Polled bucketName outcome]
         ∧ Forall (goesOn watchList) earlier
         ∧ run.2 = Some (verdict watchList outcome)).
Proof.
  induction script as [|r script IH]; intros bucketName ctx watchList cur now; simpl.
  { left. split; [done|constructor]. }
  destruct (getAllIndexes (reply r)) as [err|indexes] eqn:Hpoll; simpl.
  { right. exists [], (inl err). repeat split; constructor. }
  destruct (checkIndexesActive indexes watchList) as [err|[|]] eqn:Hcheck; simpl.
  - right. exists [], (inr indexes). simpl. rewrite Hcheck. repeat split; constructor.
  - right. exists [], (inr indexes). simpl. rewrite Hcheck. repeat split; constructor.
  - match goal with |- context [if ?c then _ else _] => destruct c end; simpl.
    { right. exists [], (inr indexes). simpl. rewrite Hcheck. repeat split; constructor. }
    match goal with |- context [watchLoop script ?b ?c ?w ?i ?n] =>
      specialize (IH b c w i n); destruct (watchLoop script b c w i n) as [events result]
    end; simpl in *.
    destruct IH as [[-> Hon]|(earlier & outcome & -> & Hon & ->)].
    + left. split; [done|]. repeat constructor; done.
    + right. eexists (Polled bucketName (inr indexes) :: Slept _ :: earlier), outcome.
      split; [reflexivity|]. split; [|done]. repeat constructor; done.
Qed.

Lemma goesOn_polled watchList bucketName indexes events :
  Forall (goesOn watchList) events →
  Polled bucketName (inr indexes) ∈ events →
  checkIndexesActive indexes watchList = inr false.
Proof.
  rewrite Forall_forall. intros Hall Hin. exact (Hall _ Hin).
Qed.

(** The poll that decides: a poll of the run whose index list makes
    [checkIndexesActive] answer anything but "not yet" is the last event,
    and the run returns its verdict. *)
Lemma watchLoop_decisive script bucketName ctx watchList cur now indexes :
  let run := watchLoop script bucketName ctx watchList cur now in
  Polled bucketName (inr indexes) ∈ run.1 →
  checkIndexesActive indexes watchList ≠ inr false →
  run.2 = Some (verdict watchList (inr indexes))
  ∧ ∃ earlier, run.1 = earlier ++ [Polled bucketName (inr indexes)].
Proof.
  intros run Hin Hcheck. subst run.
  destruct (watchLoop_shape script bucketName ctx watchList cur now)
    as [[_ Hon]|(earlier & outcome & Hev & Hon & Hres)].
  { by destruct Hcheck, (goesOn_polled _ _ _ _ Hon Hin). }
  rewrite Hev in Hin. apply elem_of_app in Hin as [Hin|Hin].
  { by destruct Hcheck, (goesOn_polled _ _ _ _ Hon Hin). }
  apply list_elem_of_singleton in Hin. injection Hin as <-.
  split; [done|]. by exists earlier.
Qed.

(** A run that returns nil has a poll that found all indexes online. *)
Lemma watchLoop_nil script bucketName ctx watchList cur now :
  let run := watchLoop script bucketName ctx watchList cur now in
  run.2 = Some None →
  ∃ indexes, Polled bucketName (inr indexes) ∈ run.1
             ∧ checkIndexesActive indexes watchList = inr true.
Proof.
  intros run Hnil. subst run.
  destruct (watchLoop_shape script bucketName ctx watchList cur now)
    as [[Hres _]|(earlier & outcome & Hev & _ & Hres)]; [congruence|].
  rewrite Hres in Hnil. injection Hnil as Hnil.
  destruct outcome as [err|indexes]; simpl in Hnil; [done|].
  exists indexes. split.
  - rewrite Hev. apply elem_of_app. right. by apply list_elem_of_singleton.
  - by destruct (checkIndexesActive indexes watchList) as [err|[|]].
Qed.

(** C4 (amended).  [WatchIndexes] returns nil exactly when some poll of
    the run finds, for every watched name (with "#primary" added when
    [WatchPrimary] is set), that the first entry of the index list with
    that name has state "online".  A poll in which some watched name has
    no entry makes [WatchIndexes] return the query index error with
    [indexMissing] set, and that poll is the last event of the run. *)
Theorem WatchIndexes_returns qm bucketName watchList timeout opts now script :
  let watched :=
    if WatchPrimary (default {| WatchPrimary := false; wo_RetryStrategy := None |} opts)
    then watchList ++ ["#primary"] else watchList in
  let run := WatchIndexes qm bucketName watchList timeout opts now script in
  (run.2 = Some None ↔
     ∃ indexes,
       Polled bucketName (inr indexes) ∈ run.1
       ∧ Forall (λ name, ∃ q, firstNamed indexes name q ∧ qi_State q = "online") watched)
  ∧ (∀ indexes name,
       Polled bucketName (inr indexes) ∈ run.1 → name ∈ watched → absent indexes name →
       run.2 = Some (Some (queryIndexError true "the index specified does not exist"))
       ∧ ∃ earlier, run.1 = earlier ++ [Polled bucketName (inr indexes)]).
Proof.
  intros watched run. subst run. unfold WatchIndexes.
  destruct (bool_decide _ && _); simpl.
  { split.
    - split; [done|]. intros (indexes & Hin & _). by apply elem_of_nil in Hin.
    - intros indexes name Hin. by apply elem_of_nil in Hin. }
  fold watched.
  match goal with |- context [watchLoop script ?b ?c ?w ?i ?n] =>
    pose proof (watchLoop_decisive script b c w i n) as Hdecisive;
    pose proof (watchLoop_nil script b c w i n) as Hnil;
    destruct (watchLoop script b c w i n) as [events result]
  end; simpl in *.
  split.
  - split.
    + intros Hres. destruct (Hnil Hres) as (indexes & Hin & Hcheck).
      exists indexes. split; [done|]. by apply checkIndexesActive_true.
    + intros (indexes & Hin & Hall). apply checkIndexesActive_true in Hall.
      destruct (Hdecisive indexes Hin) as [-> _]; [congruence|].
      simpl. by rewrite Hall.
  - intros indexes name Hin Hname Habs.
    assert (checkIndexesActive indexes watched
            = inl (queryIndexError true "the index specified does not exist")) as Hcheck.
    { apply checkIndexesActive_missing. eauto. }
    destruct (Hdecisive indexes Hin) as [-> Hlast]; [congruence|].
    split; [|done]. simpl. by rewrite Hcheck.
Qed.

(** The theorem at work: the second poll finds "idx" and "#primary"
    online, and the run returns nil. *)
Lemma WatchIndexes_returns_witness :
  let index name state :=
    {| qi_Name := name; qi_IsPrimary := false; qi_Type := "gsi"; qi_State := state;
       qi_Keyspace := "b"; qi_Namespace := "default"; qi_IndexKey := [] |} in
  let poll state :=
    {| latency := Millisecond;
       reply := inr {| rows := [index "#primary" "online"; index "idx" state];
                       closeError := None |} |} in
  (WatchIndexes {| qm_globalTimeout := 75 * Second;
                   qm_defaultRetryStrategy := newRetryStrategyWrapper None |}
     "b" ["idx"] {| wt_Timeout := 10 * Second; wt_Context := None |}
     (Some {| WatchPrimary := true; wo_RetryStrategy := None |})
     0 [poll "building"; poll "online"]).2 = Some None.
Proof.
  cbv zeta.
  match goal with |- (WatchIndexes ?qm ?b ?w ?t ?o ?n ?s).2 = _ =>
    pose proof (WatchIndexes_returns qm b w t o n s) as H
  end.
  cbv zeta in H. destruct H as [[_ H] _]. apply H. clear H.
  eexists. split.
  - vm_compute. apply list_elem_of_In. right. right. left. reflexivity.
  - repeat constructor.
    + eexists. split; [eexists [_], []; split; [reflexivity|split; [reflexivity|]]
                      |reflexivity].
      repeat constructor. discriminate.
    + eexists. split; [eexists [], [_]; split; [reflexivity|split; [reflexivity|]]
                      |reflexivity].
      constructor.
Defined.

(** C4 as stated fails when two entries of the index list bear the same
    name.  The bucket lists "a" twice, first building, then online: the
    watched name is present with state "online", yet the poll does not
    end the watch with nil; under a 1 ns timeout the run ends with a
    timeout error after that poll. *)
Lemma WatchIndexes_duplicate_name :
  let index state :=
    {| qi_Name := "a"; qi_IsPrimary := false; qi_Type := "gsi"; qi_State := state;
       qi_Keyspace := "b"; qi_Namespace := "default"; qi_IndexKey := [] |} in
  let indexes := [index "building"; index "online"] in
  let run :=
    WatchIndexes {| qm_globalTimeout := 75 * Second;
                    qm_defaultRetryStrategy := newRetryStrategyWrapper None |}
      "b" ["a"] {| wt_Timeout := 1; wt_Context := None |} None 0
      [{| latency := 0; reply := inr {| rows := indexes; closeError := None |} |}] in
  run.1 = [Polled "b" (inr indexes)]
  ∧ Forall (λ name, ∃ q, q ∈ indexes ∧ qi_Name q = name ∧ qi_State q = "online") ["a"]
  ∧ run.2 = Some (Some (timeoutError ""))
  ∧ run.2 ≠ Some None.
Proof.
  cbv zeta. split; [reflexivity|]. split; [|split; [reflexivity|discriminate]].
  repeat constructor.
  exists {| qi_Name := "a"; qi_IsPrimary := false; qi_Type := "gsi"; qi_State := "online";
            qi_Keyspace := "b"; qi_Namespace := "default"; qi_IndexKey := [] |}.
  split; [|split; reflexivity].
  apply list_elem_of_In. right. left. reflexivity.
Qed.

(** When the names of the index list are pairwise distinct, an entry
    with a name is the first entry with that name: for such lists the
    statement about first entries is the statement about entries. *)
Lemma firstNamed_unique indexes name q :
  NoDup (map qi_Name indexes) → q ∈ indexes → qi_Name q = name →
  firstNamed indexes name q.
Proof.
  intros Hnodup Hin Hname. unfold firstNamed.
  apply list_elem_of_split in Hin as (before & after & ->).
  exists before, after. repeat split; [done|].
  rewrite map_app in Hnodup. simpl in Hnodup.
  apply NoDup_app in Hnodup as (_ & Hdisjoint & _).
  apply Forall_forall. intros p Hp Heq.
  apply (Hdisjoint (qi_Name p)).
  - apply list_elem_of_fmap. by exists p.
  - rewrite Heq, <- Hname. apply list_elem_of_here.
Qed.

(** ** View query options *)

Section ViewOptionsFacts.
Variable marshalJson : any → string + string.

(** [toURLValues] is its steps in sequence. *)
Lemma toURLValues_steps (opts : ViewOptions) :
  toURLValues marshalJson opts =
    (try options := setStale opts ∅ in
     try options := setOrder opts (setPaging opts options) in
     try options := setKey marshalJson opts (setReduce opts options) in
     try options := setKeys marshalJson opts options in
     try options := setStartKey marshalJson opts options in
     try options := setEndKey marshalJson opts options in
     try options := setOnError opts (setRange opts options) in
     inr (setDebugAndRaw opts options)).
Proof. reflexivity. Qed.

(** A step leaves alone every key it does not write. *)
Ltac step_lookup :=
  intros;
  repeat match goal with
         | H : context [marshal] |- _ => unfold marshal in H
         end;
  unfold Values_Set, Values_Del in *;
  repeat (case_match; simplify_eq/=);
  repeat first [rewrite lookup_insert_ne by done | rewrite lookup_delete_ne by done];
  done.

Lemma setStale_lookup opts o o' k :
  setStale opts o = inr o' → k ≠ "stale" → o' !! k = o !! k.
Proof. unfold setStale. step_lookup. Qed.

Lemma setPaging_lookup opts o k :
  k ≠ "skip" → k ≠ "limit" → setPaging opts o !! k = o !! k.
Proof. unfold setPaging. step_lookup. Qed.

Lemma setOrder_lookup opts o o' k :
  setOrder opts o = inr o' → k ≠ "descending" → o' !! k = o !! k.
Proof. unfold setOrder. step_lookup. Qed.

Lemma setKey_lookup opts o o' k :
  setKey marshalJson opts o = inr o' → k ≠ "key" → o' !! k = o !! k.
Proof. unfold setKey. step_lookup. Qed.

Lemma setKeys_lookup opts o o' k :
  setKeys marshalJson opts o = inr o' → k ≠ "keys" → o' !! k = o !! k.
Proof. unfold setKeys. step_lookup. Qed.

Lemma setStartKey_lookup opts o o' k :
  setStartKey marshalJson opts o = inr o' → k ≠ "startkey" → o' !! k = o !! k.
Proof. unfold setStartKey. step_lookup. Qed.

Lemma setEndKey_lookup opts o o' k :
  setEndKey marshalJson opts o = inr o' → k ≠ "endkey" → o' !! k = o !! k.
Proof. unfold setEndKey. step_lookup. Qed.

Lemma setRange_lookup opts o k :
  k ≠ "inclusive_end" → k ≠ "startkey_docid" → k ≠ "endkey_docid" →
  setRange opts o !! k = o !! k.
Proof. unfold setRange. step_lookup. Qed.

Lemma setOnError_lookup opts o o' k :
  setOnError opts o = inr o' → k ≠ "on_error" → o' !! k = o !! k.
Proof. unfold setOnError. step_lookup. Qed.

(** The entries of [Raw] are written last, one value each: they override
    whatever was set for their keys. *)
Lemma raw_fold_lookup (raw : gmap string string) (o : gmap string (list string)) k :
  map_fold (λ k v options, Values_Set k v options) o raw !! k =
    match raw !! k with
    | Some v => Some [v]
    | None => o !! k
    end.
Proof.
  apply (map_fold_weak_ind
           (λ (r : gmap string (list string)) (m : gmap string string),
              r !! k = match m !! k with Some v => Some [v] | None => o !! k end)).
  - by rewrite lookup_empty.
  - intros i x m r Hfresh IH. unfold Values_Set.
    destruct (decide (i = k)) as [-> | Hne].
    + by rewrite !lookup_insert_eq.
    + by rewrite !lookup_insert_ne.
Qed.

Lemma setDebugAndRaw_lookup opts o k :
  k ≠ "debug" →
  setDebugAndRaw opts o !! k =
    match Raw opts !! k with
    | Some v => Some [v]
    | None => o !! k
    end.
Proof.
  intros Hk. unfold setDebugAndRaw. rewrite raw_fold_lookup.
  destruct (Raw opts !! k); [done|].
  destruct (Debug opts); [|done]. unfold Values_Set. by rewrite lookup_insert_ne.
Qed.

(** What the reduce step leaves at a key depends on the values before it
    at that key only. *)
Lemma setReduce_lookup_ext opts o o' k :
  o !! k = o' !! k → setReduce opts o !! k = setReduce opts o' !! k.
Proof.
  intros H. unfold setReduce, Values_Set.
  repeat case_match; rewrite ?lookup_insert; repeat case_decide; done.
Qed.

(** On success, the value at such a key is the entry of [Raw] if there is
    one, and otherwise what the steps for [ScanConsistency] and [Reduce]
    leave there. *)
Lemma toURLValues_core opts m k :
  toURLValues marshalJson opts = inr m → coreKey k →
  ∃ o, setStale opts ∅ = inr o
       ∧ m !! k = match Raw opts !! k with
                  | Some v => Some [v]
                  | None => setReduce opts o !! k
                  end.
Proof.
  rewrite toURLValues_steps. intros H Hk.
  destruct (setStale opts ∅) as [?|o1] eqn:H1; [done|].
  destruct (setOrder opts (setPaging opts o1)) as [?|o2] eqn:H2; [done|].
  destruct (setKey marshalJson opts (setReduce opts o2)) as [?|o3] eqn:H3; [done|].
  destruct (setKeys marshalJson opts o3) as [?|o4] eqn:H4; [done|].
  destruct (setStartKey marshalJson opts o4) as [?|o5] eqn:H5; [done|].
  destruct (setEndKey marshalJson opts o5) as [?|o6] eqn:H6; [done|].
  destruct (setOnError opts (setRange opts o6)) as [?|o7] eqn:H7; [done|].
  injection H as <-. exists o1. split; [done|].
  assert (k ≠ "debug" ∧ k ≠ "on_error" ∧ k ≠ "inclusive_end" ∧ k ≠ "startkey_docid"
          ∧ k ≠ "endkey_docid" ∧ k ≠ "endkey" ∧ k ≠ "startkey" ∧ k ≠ "keys"
          ∧ k ≠ "key" ∧ k ≠ "descending" ∧ k ≠ "skip" ∧ k ≠ "limit")
    as (? & ? & ? & ? & ? & ? & ? & ? & ? & ? & ? & ?).
  { destruct Hk as [-> | [-> | [-> | ->]]]; repeat split; done. }
  rewrite setDebugAndRaw_lookup by done.
  destruct (Raw opts !! k); [done|].
  rewrite (setOnError_lookup _ _ _ _ H7) by done.
  rewrite setRange_lookup by done.
  rewrite (setEndKey_lookup _ _ _ _ H6) by done.
  rewrite (setStartKey_lookup _ _ _ _ H5) by done.
  rewrite (setKeys_lookup _ _ _ _ H4) by done.
  rewrite (setKey_lookup _ _ _ _ H3) by done.
  apply setReduce_lookup_ext.
  rewrite (setOrder_lookup _ _ _ _ H2) by done.
  by rewrite setPaging_lookup.
Qed.


(** C5 (amended).  For a [ScanConsistency] other than 0 and the three
    named constants [toURLValues] returns the invalid-arguments error and
    no values.  Whenever [toURLValues] succeeds and [Raw] has no entry
    for "stale", the parameter "stale" is "false" for
    [ViewScanConsistencyRequestPlus], "ok" for
    [ViewScanConsistencyNotBounded], "update_after" for
    [ViewScanConsistencyUpdateAfter], and absent when [ScanConsistency]
    is zero; an entry of [Raw] for "stale" is what the result carries. *)
Theorem toURLValues_stale opts :
  (ScanConsistency opts ≠ 0 →
   ScanConsistency opts ≠ ViewScanConsistencyRequestPlus →
   ScanConsistency opts ≠ ViewScanConsistencyNotBounded →
   ScanConsistency opts ≠ ViewScanConsistencyUpdateAfter →
   toURLValues marshalJson opts = inl (invalidArgumentsError "unexpected stale option"))
  ∧ (∀ m, toURLValues marshalJson opts = inr m →
       (Raw opts !! "stale" = None →
          (ScanConsistency opts = ViewScanConsistencyRequestPlus →
             m !! "stale" = Some ["false"])
          ∧ (ScanConsistency opts = ViewScanConsistencyNotBounded →
               m !! "stale" = Some ["ok"])
          ∧ (ScanConsistency opts = ViewScanConsistencyUpdateAfter →
               m !! "stale" = Some ["update_after"])
          ∧ (ScanConsistency opts = 0 → m !! "stale" = None))
       ∧ (∀ v, Raw opts !! "stale" = Some v → m !! "stale" = Some [v])).
Proof.
  split.
  - intros H0 H2 H1 H3. rewrite toURLValues_steps. unfold setStale.
    destruct (Z.eqb_spec (ScanConsistency opts) 0); [done|].
    destruct (Z.eqb_spec (ScanConsistency opts) ViewScanConsistencyRequestPlus); [done|].
    destruct (Z.eqb_spec (ScanConsistency opts) ViewScanConsistencyNotBounded); [done|].
    destruct (Z.eqb_spec (ScanConsistency opts) ViewScanConsistencyUpdateAfter); [done|].
    done.
  - intros m Hm.
    destruct (toURLValues_core opts m "stale" Hm) as (o & Ho & Hlookup).
    { by left. }
    split; [|by intros v Hv; rewrite Hlookup, Hv].
    intros Hraw. rewrite Hraw in Hlookup.
    assert (m !! "stale" = o !! "stale") as ->.
    { rewrite Hlookup. unfold setReduce, Values_Set.
      repeat case_match; by rewrite ?lookup_insert_ne. }
    clear Hlookup Hm. unfold setStale, Values_Set in Ho.
    repeat split; intros Hsc; rewrite Hsc in Ho; simpl in Ho;
      injection Ho as <-; by rewrite ?lookup_insert_eq.
Qed.

End ViewOptionsFacts.

(** Setting one field of the zero options. *)
Lemma toURLValues_zero :
  toURLValues (λ _, inr "null") zeroViewOptions = inr {[ "reduce" := ["false"] ]}.
Proof. vm_compute. reflexivity. Qed.

(** The theorem at work: request-plus consistency with paging, a start
    key and a raw entry for another key. *)
Lemma toURLValues_stale_witness :
  let opts :=
    {| ScanConsistency := ViewScanConsistencyRequestPlus; Skip := 10; Limit := 5;
       Order := ViewOrderingDescending; Reduce := false; Group := false;
       GroupLevel := 0; Key := AnyNil; Keys := []; StartKey := AnyList [AnyInt64 1];
       EndKey := AnyNil; InclusiveEnd := true; StartKeyDocID := ""; EndKeyDocID := "";
       Namespace := true; Raw := {[ "full_set" := "true" ]}; OnError := 0;
       Debug := false |} in
  ∃ m, toURLValues (λ _, inr "[1]") opts = inr m ∧ m !! "stale" = Some ["false"].
Proof.
  intros opts.
  destruct (toURLValues (λ _, inr "[1]") opts) as [err|m] eqn:Hm.
  { vm_compute in Hm. discriminate Hm. }
  exists m. split; [reflexivity|].
  destruct (toURLValues_stale (λ _, inr "[1]") opts) as [_ Hsuccess].
  destruct (Hsuccess m Hm) as [Hnoraw _].
  destruct (Hnoraw eq_refl) as [Hplus _].
  exact (Hplus eq_refl).
Defined.

(** C5 as stated fails.  With [ScanConsistency] zero and a [Raw] entry
    for "stale" the parameter is present; with request-plus consistency
    and a [Raw] entry for "stale" its value is the raw one, not "false";
    and with request-plus consistency and an [Order] that is neither
    constant, [toURLValues] fails and yields no values at all. *)
Lemma toURLValues_stale_overridden :
  let raw v := {| ScanConsistency := 0; Skip := 0; Limit := 0; Order := 0;
                  Reduce := false; Group := false; GroupLevel := 0;
                  Key := AnyNil; Keys := []; StartKey := AnyNil; EndKey := AnyNil;
                  InclusiveEnd := false; StartKeyDocID := ""; EndKeyDocID := "";
                  Namespace := false; Raw := {[ "stale" := v ]}; OnError := 0;
                  Debug := false |} in
  let plus order raw :=
               {| ScanConsistency := ViewScanConsistencyRequestPlus; Skip := 0; Limit := 0;
                  Order := order; Reduce := false; Group := false; GroupLevel := 0;
                  Key := AnyNil; Keys := []; StartKey := AnyNil; EndKey := AnyNil;
                  InclusiveEnd := false; StartKeyDocID := ""; EndKeyDocID := "";
                  Namespace := false; Raw := raw; OnError := 0; Debug := false |} in
  (∃ m, toURLValues (λ _, inr "null") (raw "ok") = inr m
        ∧ m !! "stale" = Some ["ok"] ∧ m !! "stale" ≠ None)
  ∧ (∃ m, toURLValues (λ _, inr "null") (plus 0 {[ "stale" := "update_after" ]}) = inr m
          ∧ m !! "stale" = Some ["update_after"] ∧ m !! "stale" ≠ Some ["false"])
  ∧ toURLValues (λ _, inr "null") (plus 7 ∅)
      = inl (invalidArgumentsError "unexpected order option").
Proof.
  cbv zeta. repeat split.
  - eexists. split; [vm_compute; reflexivity|]. split; [reflexivity|discriminate].
  - eexists. split; [vm_compute; reflexivity|]. split; [reflexivity|discriminate].
Qed.



(** ** Sub-document builders *)

(** Negation in [int64]: exact except at the least value, which it maps
    to itself. *)
Lemma wrap64_neg (delta : Z) :
  minInt64 < delta ≤ maxInt64 → wrap64 (- delta) = - delta.
Proof. unfold minInt64, maxInt64. intros H. apply wrap64_small. unfold minInt64, maxInt64. lia. Qed.

Lemma wrap64_neg_min : wrap64 (- minInt64) = minInt64.
Proof. reflexivity. Qed.

Section SubDocFacts.
Variable SubdocFlagCreatePath : Z.
Variable SubdocFlagXattr : Z.
Variable SubdocFlagUseMacros : Z.

(** C10.  [Decrement path delta opts] builds the very operation that
    [Increment] builds for the negated delta: a counter operation at
    [path] whose value is [-delta] (negation of an [int64]) and whose
    flags are those [Increment] computes from the same options. *)
Theorem Decrement_is_Increment_of_negation path delta opts :
  let decrement := Decrement SubdocFlagCreatePath SubdocFlagXattr path delta opts in
  decrement = Increment SubdocFlagCreatePath SubdocFlagXattr path (wrap64 (- delta)) opts
  ∧ Op (mutate_op decrement) = SubDocOpCounter
  ∧ OpPath (mutate_op decrement) = path
  ∧ Value (mutate_op decrement) = AnyInt64 (wrap64 (- delta))
  ∧ Flags (mutate_op decrement)
    = Flags (mutate_op (Increment SubdocFlagCreatePath SubdocFlagXattr path delta opts)).
Proof. repeat split. Qed.

(** The three flags are distinct bits of the flag byte: none is zero and
    no two overlap.  (In the engine they are 0x01, 0x04 and 0x10.) *)
Hypothesis createPath_set : SubdocFlagCreatePath ≠ 0.
Hypothesis xattr_set : SubdocFlagXattr ≠ 0.
Hypothesis useMacros_set : SubdocFlagUseMacros ≠ 0.
Hypothesis createPath_xattr : Z.land SubdocFlagCreatePath SubdocFlagXattr = 0.
Hypothesis createPath_useMacros : Z.land SubdocFlagCreatePath SubdocFlagUseMacros = 0.
Hypothesis xattr_useMacros : Z.land SubdocFlagXattr SubdocFlagUseMacros = 0.

Ltac flag_algebra :=
  pose proof createPath_xattr as Hcx; pose proof createPath_useMacros as Hcu;
  pose proof xattr_useMacros as Hxu;
  pose proof createPath_xattr as Hxc; rewrite Z.land_comm in Hxc;
  pose proof createPath_useMacros as Huc; rewrite Z.land_comm in Huc;
  pose proof xattr_useMacros as Hux; rewrite Z.land_comm in Hux;
  unfold hasFlag; simpl;
  rewrite ?Z.land_lor_distr_l, ?Z.land_0_l, ?Z.land_diag,
    ?Hcx, ?Hcu, ?Hxu, ?Hxc, ?Huc, ?Hux, ?Z.lor_0_l, ?Z.lor_0_r.

(** C7.  [Insert] builds a dictionary-add operation with the path and
    value it is given; its flags contain the create-path flag exactly
    when [CreatePath] is set in the options, the xattr flag exactly when
    [IsXattr] is set or the value is a [MutationMacro], and the
    use-macros flag exactly when the value is a [MutationMacro].  Nil
    options count as no option set. *)
Theorem Insert_builds_dict_add path val opts :
  let given := default {| ins_CreatePath := false; ins_IsXattr := false |} opts in
  let op := mutate_op (Insert SubdocFlagCreatePath SubdocFlagXattr SubdocFlagUseMacros
                         path val opts) in
  Op op = SubDocOpDictAdd
  ∧ OpPath op = path
  ∧ Value op = val
  ∧ (hasFlag (Flags op) SubdocFlagCreatePath ↔ ins_CreatePath given = true)
  ∧ (hasFlag (Flags op) SubdocFlagXattr ↔
       ins_IsXattr given = true ∨ isMutationMacro val = true)
  ∧ (hasFlag (Flags op) SubdocFlagUseMacros ↔ isMutationMacro val = true).
Proof.
  intros given op. subst given op. unfold Insert.
  destruct opts as [[createPath isXattr]|]; simpl;
    destruct (isMutationMacro val); try destruct createPath; try destruct isXattr;
    (split; [reflexivity|]); (split; [reflexivity|]); (split; [reflexivity|]);
    flag_algebra; repeat split; intros; try tauto; try congruence;
    try (right; reflexivity); try (left; reflexivity);
    match goal with H : _ ∨ _ |- _ => destruct H; congruence end.
Qed.
End SubDocFacts.

(** The theorem at work with the flag values of the engine: a macro
    inserted with [CreatePath] carries all three flags. *)
Lemma Insert_builds_dict_add_witness :
  let op := mutate_op (Insert 1 4 16 "meta.cas" (AnyMacro "${Mutation.CAS}")
                         (Some {| ins_CreatePath := true; ins_IsXattr := false |})) in
  hasFlag (Flags op) 1 ∧ hasFlag (Flags op) 4 ∧ hasFlag (Flags op) 16.
Proof.
  cbv zeta.
  destruct (Insert_builds_dict_add 1 4 16
              ltac:(discriminate) ltac:(discriminate) ltac:(discriminate)
              eq_refl eq_refl eq_refl
              "meta.cas" (AnyMacro "${Mutation.CAS}")
              (Some {| ins_CreatePath := true; ins_IsXattr := false |}))
    as (_ & _ & _ & Hcreate & Hxattr & Hmacro).
  split; [by apply Hcreate|]. split; [apply Hxattr; by right|by apply Hmacro].
Defined.

(** ** Lookups: what is dispatched *)

Lemma collect_ops (ops : list LookupInOp) (subdocs : list SubDocOp) :
  fold_left (λ subdocs op, subdocs ++ [lookup_op op]) ops subdocs
  = subdocs ++ map lookup_op ops.
Proof.
  revert subdocs. induction ops as [|op ops IH]; intros subdocs; simpl.
  - by rewrite app_nil_r.
  - by rewrite IH, <- app_assoc.
Qed.

Section LookupInFacts.
Variable SubdocFlagXattr : Z.
Variable kvReply : Type.
Variable LookupInResult : Type.
Variable finish : list SubDocOp → LookupInOptions → kvReply → error + LookupInResult.

(** C9.  With more than 16 operations [LookupIn] returns an error and
    hands nothing to the kv provider.  With at most 16, every request it
    dispatches carries exactly the given operations in order, preceded
    by the xattr get of "$document.exptime" exactly when [WithExpiry] is
    set, so at most 17 operations; it dispatches one request when the
    collection has a kv provider and none when it has not. *)
Theorem LookupIn_dispatch (c : Collection kvReply) key ops opts :
  let given := default {| lio_Context := None; lio_Timeout := 0; WithExpiry := false |} opts in
  let expiry := {| sd_Op := SubDocOpGet; sd_Flags := SubdocFlagXattr;
                   sd_Path := "$document.exptime"; sd_Value := "" |} in
  let run := LookupIn SubdocFlagXattr kvReply LookupInResult finish c key ops opts in
  ((16 < length ops)%nat → run.1 = [] ∧ ∃ err, run.2 = inl err)
  ∧ ((length ops ≤ 16)%nat →
       (∀ request, request ∈ run.1 →
          co_Ops request = (if WithExpiry given then [expiry] else []) ++ map lookup_op ops
          ∧ (length (co_Ops request) ≤ 17)%nat)
       ∧ (∀ agent, getKvProvider c = inr agent → ∃ request, run.1 = [request])
       ∧ (∀ err, getKvProvider c = inl err → run.1 = [])).
Proof.
  intros given expiry run. subst run. unfold LookupIn, lookupIn. fold given.
  rewrite collect_ops. simpl.
  destruct (getKvProvider c) as [err|agent] eqn:Hprovider; simpl.
  { split; [by eauto|]. intros _. split; [|split].
    - intros request Hin. by apply elem_of_nil in Hin.
    - intros agent Hagent. discriminate Hagent.
    - done. }
  destruct (Nat.ltb_spec 16 (length ops)) as [Hmany|Hfew]; simpl.
  { split; [by eauto|]. lia. }
  split; [lia|]. intros _.
  match goal with |- context [finish ?s ?o ?r] => destruct (finish s o r) end; simpl.
  all: split; [|split; [by eauto|intros err' Herr; discriminate Herr]].
  all: intros request Hin; apply list_elem_of_singleton in Hin as ->; simpl.
  all: fold expiry; destruct (WithExpiry given); simpl; rewrite ?length_map;
    (split; [reflexivity|lia]).
Qed.
End LookupInFacts.

(** The theorem at work: sixteen gets with the expiry requested make one
    request of seventeen operations. *)
Lemma LookupIn_dispatch_witness :
  let c : Collection unit :=
    {| getKvProvider := inr (λ _, tt); c_name := "_default"; c_scopeName := "_default" |} in
  let ops := replicate 16 (LookupInSpec_Get 4 "name" None) in
  let opts := Some {| lio_Context := None; lio_Timeout := 0; WithExpiry := true |} in
  ∃ request,
    (LookupIn 4 unit unit (λ _ _ _, inr tt) c "doc" ops opts).1 = [request]
    ∧ length (co_Ops request) = 17%nat.
Proof.
  intros c ops opts.
  destruct (LookupIn_dispatch 4 unit unit (λ _ _ _, inr tt) c "doc" ops opts) as [_ Hfew].
  destruct Hfew as (Hops & Hone & _); [simpl; lia|].
  destruct (Hone (λ _, tt) eq_refl) as [request Hrun].
  exists request. split; [exact Hrun|].
  destruct (Hops request) as [-> _]; [rewrite Hrun; apply list_elem_of_here|].
  reflexivity.
Defined.

(* ===================================================================== *)
(** * Part III: further properties of the embedded code                   *)
(* ===================================================================== *)

(** ** Contexts *)

(** The context an operation runs under always has a deadline.  It is
    the clock reading plus the operation's timeout, or plus the global
    timeout when the operation's is zero, unless the caller's context
    expires earlier: then it is that context's deadline. *)
Theorem contextFromMaybeTimeout_deadline ctx timeout globalTimeout now :
  let effective := if timeout =? 0 then globalTimeout else timeout in
  let inherited := ctx ≫= Deadline in
  ∃ d, Deadline (contextFromMaybeTimeout ctx timeout globalTimeout now) = Some d
       ∧ d ≤ now + effective
       ∧ (∀ p, inherited = Some p → d ≤ p)
       ∧ (d = now + effective ∨ inherited = Some d).
Proof.
  intros effective inherited. subst effective inherited.
  unfold contextFromMaybeTimeout, WithTimeout, Background. cbv zeta.
  destruct (timeout =? 0); destruct ctx as [[[p|]]|]; simpl;
    eexists; (split; [reflexivity|]).
  all: try (split; [lia|]; split; [done|by left]).
  all: split; [apply Z.le_min_r|]; (split; [intros ? [= <-]; apply Z.le_min_l|]).
  - destruct (Z.min_spec p (now + globalTimeout)) as [[_ ->]|[_ ->]]; auto.
  - destruct (Z.min_spec p (now + timeout)) as [[_ ->]|[_ ->]]; auto.
Qed.

(** ** Bucket settings *)

Lemma bucketType_cases (t : string) :
  t = CouchbaseBucketType ∨ t = MemcachedBucketType ∨ t = EphemeralBucketType
  ∨ (t ≠ CouchbaseBucketType ∧ t ≠ MemcachedBucketType ∧ t ≠ EphemeralBucketType).
Proof.
  destruct (decide (t = CouchbaseBucketType)); [by left|].
  destruct (decide (t = MemcachedBucketType)); [by right; left|].
  destruct (decide (t = EphemeralBucketType)); [by right; right; left|].
  by right; right; right.
Qed.

(** [settingsToPostData] rejects settings exactly when the name is
    empty, the memory quota is below 100, the bucket type is none of the
    three known ones, or a memcached bucket asks for replicas; what it
    returns then is an invalid-arguments error. *)
Theorem settingsToPostData_rejects settings :
  ((∃ err, settingsToPostData settings = inl err) ↔
     Name settings = ""
     ∨ RAMQuotaMB settings < 100
     ∨ (BucketType settings ≠ CouchbaseBucketType
        ∧ BucketType settings ≠ MemcachedBucketType
        ∧ BucketType settings ≠ EphemeralBucketType)
     ∨ (BucketType settings = MemcachedBucketType ∧ 0 < NumReplicas settings))
  ∧ (∀ err, settingsToPostData settings = inl err →
       ∃ message, err = invalidArgumentsError message).
Proof.
  split; [|intros err; apply settingsToPostData_error].
  unfold settingsToPostData.
  destruct (String.eqb_spec (Name settings) "") as [Hname|Hname].
  { split; [by left|by eauto]. }
  destruct (Z.ltb_spec (RAMQuotaMB settings) 100) as [Hquota|Hquota].
  { split; [by right; left|by eauto]. }
  destruct (bucketType_cases (BucketType settings)) as [Ht|[Ht|[Ht|(Hc & Hm & He)]]].
  - rewrite Ht. simpl. split.
    + intros [err Herr]. repeat case_match; discriminate.
    + intros [?|[?|[(Hc & _)|[Hm _]]]]; [done|lia|done|discriminate Hm].
  - rewrite Ht. simpl.
    destruct (Z.gtb_spec (NumReplicas settings) 0) as [Hrep|Hrep].
    + split; [|by eauto]. intros _. right; right; right. split; [done|lia].
    + split.
      * intros [err Herr]. repeat case_match; discriminate.
      * intros [?|[?|[(_ & Hm & _)|[_ Hr]]]]; [done|lia|done|lia].
  - rewrite Ht. simpl. split.
    + intros [err Herr]. repeat case_match; discriminate.
    + intros [?|[?|[(_ & _ & He)|[Hm _]]]]; [done|lia|done|discriminate Hm].
  - destruct (String.eqb_spec (BucketType settings) CouchbaseBucketType); [done|].
    destruct (String.eqb_spec (BucketType settings) MemcachedBucketType); [done|].
    destruct (String.eqb_spec (BucketType settings) EphemeralBucketType); [done|].
    split; [|by eauto]. intros _. right; right; left. done.
Qed.

(** Lookups in a form built by [Values_Add] on distinct keys. *)
Ltac form_lookup :=
  unfold Values_Add;
  repeat first
    [ rewrite lookup_insert_eq
    | rewrite lookup_insert_ne by done
    | rewrite lookup_empty ];
  simpl.

(** The form of accepted settings has exactly one value for each of
    "name", "flushEnabled", "replicaIndex", "bucketType" and
    "ramQuotaMB"; "replicaNumber" is sent for every bucket type but
    memcached; "evictionPolicy" and "compressionMode" are sent when they
    are not empty and "maxTTL" when it is positive. *)
Theorem settingsToPostData_form settings posts :
  settingsToPostData settings = inr posts →
  posts !! "name" = Some [Name settings]
  ∧ posts !! "flushEnabled" = Some [if FlushEnabled settings then "1" else "0"]
  ∧ posts !! "replicaIndex" = Some [if ReplicaIndexDisabled settings then "0" else "1"]
  ∧ posts !! "bucketType" = Some [BucketType settings]
  ∧ posts !! "ramQuotaMB" = Some [formatInt (RAMQuotaMB settings)]
  ∧ posts !! "replicaNumber"
    = (if String.eqb (BucketType settings) MemcachedBucketType then None
       else Some [formatInt (NumReplicas settings)])
  ∧ posts !! "evictionPolicy"
    = (if String.eqb (EvictionPolicy settings) "" then None
       else Some [EvictionPolicy settings])
  ∧ posts !! "maxTTL"
    = (if MaxTTL settings >? 0 then Some [formatInt (MaxTTL settings)] else None)
  ∧ posts !! "compressionMode"
    = (if String.eqb (CompressionMode settings) "" then None
       else Some [CompressionMode settings]).
Proof.
  unfold settingsToPostData, strNe.
  destruct (String.eqb (Name settings) ""); [done|].
  destruct (RAMQuotaMB settings <? 100); [done|].
  destruct (bucketType_cases (BucketType settings)) as [Ht|[Ht|[Ht|(Hc & Hm & He)]]].
  4: { destruct (String.eqb_spec (BucketType settings) CouchbaseBucketType); [done|].
       destruct (String.eqb_spec (BucketType settings) MemcachedBucketType); [done|].
       destruct (String.eqb_spec (BucketType settings) EphemeralBucketType); done. }
  all: rewrite Ht; simpl.
  2: destruct (NumReplicas settings >? 0); [done|].
  all: destruct (String.eqb (EvictionPolicy settings) "");
    destruct (MaxTTL settings >? 0);
    destruct (String.eqb (CompressionMode settings) ""); simpl;
    intros [= <-]; repeat split; form_lookup; reflexivity.
Qed.

(** The theorem at work on the settings of a small couchbase bucket. *)
Lemma settingsToPostData_form_witness :
  ∃ posts,
    settingsToPostData
      {| Name := "travel"; FlushEnabled := true; ReplicaIndexDisabled := false;
         RAMQuotaMB := 256; NumReplicas := 2; BucketType := CouchbaseBucketType;
         EvictionPolicy := ""; MaxTTL := 0; CompressionMode := "passive" |} = inr posts
    ∧ posts !! "replicaNumber" = Some ["2"]
    ∧ posts !! "maxTTL" = None.
Proof.
  set (settings :=
         {| Name := "travel"; FlushEnabled := true; ReplicaIndexDisabled := false;
            RAMQuotaMB := 256; NumReplicas := 2; BucketType := CouchbaseBucketType;
            EvictionPolicy := ""; MaxTTL := 0; CompressionMode := "passive" |}).
  destruct (settingsToPostData settings) as [err|posts] eqn:Hposts.
  { vm_compute in Hposts. discriminate Hposts. }
  exists posts. split; [reflexivity|].
  destruct (settingsToPostData_form settings posts Hposts)
    as (_ & _ & _ & _ & _ & Hreplicas & _ & Httl & _).
  split; [exact Hreplicas|exact Httl].
Defined.

(** [CreateBucket] and [UpdateBucket] validate before they send: with
    settings that [settingsToPostData] rejects they hand nothing to the
    engine and return its error; with settings it accepts they send one
    POST whose body is the encoded form, [UpdateBucket] to the bucket's
    own path and [CreateBucket] to the bucket list, with the conflict
    resolution type added when it is not empty. *)
Theorem bucket_writes_validate_first Encode bm settings conflict opts now uid :
  let create := CreateBucket Encode bm
                  {| cbs_BucketSettings := settings; ConflictResolutionType := conflict |}
                  opts now uid in
  let update := UpdateBucket Encode bm settings opts now uid in
  match settingsToPostData settings with
  | inl err => create = ([], Some err) ∧ update = ([], Some err)
  | inr posts =>
      map (λ req, (Method req, Path req, Body req)) create.1
        = [("POST", "/pools/default/buckets",
            Encode (if String.eqb conflict "" then posts
                    else Values_Add "conflictResolutionType" conflict posts))]
      ∧ map (λ req, (Method req, Path req, Body req)) update.1
        = [("POST", "/pools/default/buckets/" +:+ Name settings, Encode posts)]
  end.
Proof.
  unfold CreateBucket, UpdateBucket, strNe; simpl.
  destruct (settingsToPostData settings) as [err|posts]; [done|].
  simpl. by destruct (String.eqb conflict "").
Qed.

(** [bucketDataInToSettings] keeps the name, and turns the raw RAM quota
    in bytes into whole mebibytes, rounding down; a quota that is not
    positive is kept as it is.  Flushing counts as enabled when the
    bucket has a flush controller, and an unknown bucket type becomes the
    empty type. *)
Theorem bucketDataInToSettings_quota bucketData :
  let name := (bucketDataInToSettings bucketData).1 in
  let settings := (bucketDataInToSettings bucketData).2 in
  let raw := bd_Quota_RawRam bucketData in
  name = bd_Name bucketData
  ∧ Name settings = name
  ∧ (raw ≤ 0 → RAMQuotaMB settings = raw)
  ∧ (0 < raw →
       0 ≤ RAMQuotaMB settings
       ∧ RAMQuotaMB settings * 1048576 ≤ raw < (RAMQuotaMB settings + 1) * 1048576)
  ∧ (FlushEnabled settings = true ↔ bd_Controllers_Flush bucketData ≠ "")
  ∧ (BucketType settings = "" ∨ BucketType settings = bd_BucketType bucketData).
Proof.
  unfold bucketDataInToSettings; simpl.
  split; [done|]. split; [done|].
  split; [|split; [|split]].
  - intros Hraw. destruct (Z.gtb_spec (bd_Quota_RawRam bucketData) 0); [lia|done].
  - intros Hraw. destruct (Z.gtb_spec (bd_Quota_RawRam bucketData) 0); [|lia].
    rewrite (Z.quot_div_nonneg (bd_Quota_RawRam bucketData) 1024) by lia.
    rewrite Z.quot_div_nonneg by (try lia; apply Z.div_pos; lia).
    rewrite Z.div_div by lia.
    change (1024 * 1024) with 1048576.
    pose proof (Z.div_pos (bd_Quota_RawRam bucketData) 1048576).
    pose proof (Z.mul_div_le (bd_Quota_RawRam bucketData) 1048576).
    pose proof (Z.mul_succ_div_gt (bd_Quota_RawRam bucketData) 1048576).
    lia.
  - unfold strNe. destruct (String.eqb_spec (bd_Controllers_Flush bucketData) ""); simpl.
    + split; [done|]. intros H. by destruct H.
    + done.
  - destruct (String.eqb_spec (bd_BucketType bucketData) "membase") as [->|?]; [by right|].
    destruct (String.eqb_spec (bd_BucketType bucketData) "memcached") as [->|?]; [by right|].
    destruct (String.eqb_spec (bd_BucketType bucketData) "ephemeral") as [->|?]; [by right|].
    by left.
Qed.

(** A bucket as the server describes it can be written back: when its
    name is not empty, its raw quota is at least 100 MiB, its type is one
    of the three known ones and a memcached bucket reports no replicas,
    [settingsToPostData] accepts the settings [bucketDataInToSettings]
    makes of it. *)
Theorem bucketData_settings_accepted bucketData :
  bd_Name bucketData ≠ "" →
  100 * 1048576 ≤ bd_Quota_RawRam bucketData →
  bd_BucketType bucketData = "membase" ∨ bd_BucketType bucketData = "ephemeral"
  ∨ (bd_BucketType bucketData = "memcached" ∧ bd_ReplicaNumber bucketData ≤ 0) →
  ∃ posts,
    settingsToPostData (bucketDataInToSettings bucketData).2 = inr posts
    ∧ posts !! "name" = Some [bd_Name bucketData].
Proof.
  intros Hname Hquota Htype.
  unfold settingsToPostData, bucketDataInToSettings, strNe; simpl.
  destruct (String.eqb_spec (bd_Name bucketData) ""); [done|].
  destruct (Z.gtb_spec (bd_Quota_RawRam bucketData) 0); [|lia].
  destruct (Z.ltb_spec (Z.quot (Z.quot (bd_Quota_RawRam bucketData) 1024) 1024) 100)
    as [Hsmall|_].
  { exfalso. revert Hsmall.
    rewrite (Z.quot_div_nonneg (bd_Quota_RawRam bucketData) 1024) by lia.
    rewrite Z.quot_div_nonneg by (try lia; apply Z.div_pos; lia).
    rewrite Z.div_div by lia. change (1024 * 1024) with 1048576.
    pose proof (Z.div_le_lower_bound (bd_Quota_RawRam bucketData) 1048576 100).
    lia. }
  destruct Htype as [Ht|[Ht|[Ht Hreplicas]]]; rewrite Ht; simpl.
  3: destruct (Z.gtb_spec (bd_ReplicaNumber bucketData) 0); [lia|].
  all: destruct (String.eqb (bd_EvictionPolicy bucketData) "");
    destruct (bd_MaxTTL bucketData >? 0);
    destruct (String.eqb (bd_CompressionMode bucketData) ""); simpl;
    eexists; (split; [reflexivity|]); form_lookup; reflexivity.
Qed.

Lemma bucketData_settings_accepted_witness :
  ∃ posts,
    settingsToPostData
      (bucketDataInToSettings
         {| bd_Name := "beer"; bd_Controllers_Flush := ""; bd_ReplicaIndex := true;
            bd_Quota_Ram := 0; bd_Quota_RawRam := 268435456; bd_ReplicaNumber := 1;
            bd_BucketType := "membase"; bd_ConflictResolutionType := "seqno";
            bd_EvictionPolicy := "valueOnly"; bd_MaxTTL := 0;
            bd_CompressionMode := "" |}).2 = inr posts
    ∧ posts !! "name" = Some ["beer"].
Proof.
  apply (bucketData_settings_accepted
           {| bd_Name := "beer"; bd_Controllers_Flush := ""; bd_ReplicaIndex := true;
              bd_Quota_Ram := 0; bd_Quota_RawRam := 268435456; bd_ReplicaNumber := 1;
              bd_BucketType := "membase"; bd_ConflictResolutionType := "seqno";
              bd_EvictionPolicy := "valueOnly"; bd_MaxTTL := 0;
              bd_CompressionMode := "" |});
    simpl; [discriminate|lia|by left].
Defined.

(** The map [GetAllBuckets] returns is keyed by bucket name: every entry
    holds the settings of a bucket of that name, and every bucket the
    server listed has an entry. *)
Lemma buckets_fold_names (bucketsData : list bucketDataIn) :
  ∀ acc : gmap string BucketSettings,
    (∀ name settings, acc !! name = Some settings → Name settings = name) →
    let buckets :=
      fold_left
        (λ buckets bucketData,
           let '(name, settings) := bucketDataInToSettings bucketData in
           <[name := settings]> buckets)
        bucketsData acc in
    (∀ name settings, buckets !! name = Some settings → Name settings = name)
    ∧ (∀ name, is_Some (acc !! name) → is_Some (buckets !! name))
    ∧ (∀ bucketData, bucketData ∈ bucketsData → is_Some (buckets !! bd_Name bucketData)).
Proof.
  induction bucketsData as [|bucketData bucketsData IH]; intros acc Hacc; simpl.
  { split; [done|]. split; [done|]. intros ? Hin. by apply elem_of_nil in Hin. }
  match goal with |- context [fold_left _ _ ?acc'] => specialize (IH acc') end.
  destruct IH as (Hnames & Hkeeps & Hall).
  { intros name settings. unfold bucketDataInToSettings.
    rewrite lookup_insert. case_decide; [|by apply Hacc].
    intros [= <-]. done. }
  split; [done|]. split.
  - intros name Hsome. apply Hkeeps. unfold bucketDataInToSettings.
    rewrite lookup_insert. case_decide; eauto.
  - intros bd Hin. apply elem_of_cons in Hin as [->|Hin]; [|by apply Hall].
    apply Hkeeps. unfold bucketDataInToSettings. rewrite lookup_insert_eq. eauto.
Qed.

Theorem GetAllBuckets_keyed_by_name decodeBucketsData bm opts now uid buckets :
  (GetAllBuckets decodeBucketsData bm opts now uid).2 = inr buckets →
  (∀ name settings, buckets !! name = Some settings → Name settings = name)
  ∧ (∀ req resp bucketsData bucketData,
       (GetAllBuckets decodeBucketsData bm opts now uid).1 = [req] →
       bm_httpClient bm req = inr resp →
       decodeBucketsData (RespBody resp) = inr bucketsData →
       bucketData ∈ bucketsData → is_Some (buckets !! bd_Name bucketData)).
Proof.
  unfold GetAllBuckets; simpl.
  match goal with |- context [bm_httpClient bm ?r] => set (req := r); clearbody req end.
  destruct (bm_httpClient bm req) as [[|why]|[status body]] eqn:Hengine; simpl; [done..|].
  destruct (status =? 200); simpl; [|by destruct (ReadAll body)].
  destruct (decodeBucketsData body) as [why|bucketsData] eqn:Hdecode; simpl; [done|].
  intros [= <-].
  destruct (buckets_fold_names bucketsData ∅) as (Hnames & _ & Hall); [done|].
  split; [exact Hnames|].
  intros req0 resp0 bucketsData0 bucketData [= <-] Hanswer Hdecode0 Hin.
  rewrite Hengine in Hanswer. injection Hanswer as <-. simpl in Hdecode0.
  rewrite Hdecode in Hdecode0. injection Hdecode0 as <-. by apply Hall.
Qed.

Lemma GetAllBuckets_keyed_by_name_witness :
  let bucket name :=
    {| bd_Name := name; bd_Controllers_Flush := ""; bd_ReplicaIndex := true;
       bd_Quota_Ram := 0; bd_Quota_RawRam := 268435456; bd_ReplicaNumber := 1;
       bd_BucketType := "membase"; bd_ConflictResolutionType := "";
       bd_EvictionPolicy := ""; bd_MaxTTL := 0; bd_CompressionMode := "" |} in
  let bm := {| bm_httpClient := λ _, inr {| StatusCode := 200; RespBody := BodyData "[]" |};
               bm_globalTimeout := 75 * Second;
               bm_defaultRetryStrategy := newRetryStrategyWrapper None |} in
  ∃ buckets,
    (GetAllBuckets (λ _, inr [bucket "a"; bucket "b"; bucket "a"]) bm None 0 "u").2
      = inr buckets
    ∧ ∀ name settings, buckets !! name = Some settings → Name settings = name.
Proof.
  intros bucket bm.
  destruct (GetAllBuckets (λ _, inr [bucket "a"; bucket "b"; bucket "a"]) bm None 0 "u").2
    as [err|buckets] eqn:Hrun.
  { vm_compute in Hrun. discriminate Hrun. }
  exists buckets. split; [reflexivity|].
  exact (proj1 (GetAllBuckets_keyed_by_name _ bm None 0 "u" buckets Hrun)).
Defined.

(** ** Watching indexes: failures and pending indexes *)

(** A query that fails ends the watch: its error is returned unchanged
    and the failing poll is the last event of the run. *)
Theorem WatchIndexes_stops_at_failed_poll
    qm bucketName watchList timeout opts now script err :
  let run := WatchIndexes qm bucketName watchList timeout opts now script in
  Polled bucketName (inl err) ∈ run.1 →
  run.2 = Some (Some err)
  ∧ ∃ earlier, run.1 = earlier ++ [Polled bucketName (inl err)].
Proof.
  intros run Hin. subst run. unfold WatchIndexes in *.
  destruct (bool_decide _ && _); simpl in *; [by apply elem_of_nil in Hin|].
  match goal with |- context [watchLoop script ?b ?c ?w ?i ?n] =>
    destruct (watchLoop_shape script b c w i n)
      as [[_ Hon]|(earlier & outcome & Hev & Hon & Hres)];
    destruct (watchLoop script b c w i n) as [events result]
  end; simpl in *.
  - rewrite Forall_forall in Hon. by destruct (Hon _ Hin).
  - rewrite Hev in Hin. apply elem_of_app in Hin as [Hin|Hin].
    { rewrite Forall_forall in Hon. by destruct (Hon _ Hin). }
    apply list_elem_of_singleton in Hin. injection Hin as <-.
    split; [done|]. by exists earlier.
Qed.

Lemma WatchIndexes_stops_at_failed_poll_witness :
  let index :=
    {| qi_Name := "idx"; qi_IsPrimary := false; qi_Type := "gsi"; qi_State := "building";
       qi_Keyspace := "b"; qi_Namespace := "default"; qi_IndexKey := [] |} in
  let run :=
    WatchIndexes {| qm_globalTimeout := 75 * Second;
                    qm_defaultRetryStrategy := newRetryStrategyWrapper None |}
      "b" ["idx"] {| wt_Timeout := 10 * Second; wt_Context := None |} None 0
      [ {| latency := Millisecond;
           reply := inr {| rows := [index]; closeError := None |} |};
        {| latency := Millisecond; reply := inl (engineError "service unavailable") |};
        {| latency := Millisecond;
           reply := inr {| rows := [index]; closeError := None |} |} ] in
  run.2 = Some (Some (engineError "service unavailable")).
Proof.
  intros index run. subst run.
  match goal with |- (WatchIndexes ?qm ?b ?w ?t ?o ?n ?s).2 = _ =>
    apply (WatchIndexes_stops_at_failed_poll qm b w t o n s
             (engineError "service unavailable"))
  end.
  vm_compute. apply list_elem_of_In. right. right. left. reflexivity.
Defined.

(** [checkIndexesActive] has three outcomes and no other: the
    index-missing error when some name of the check list has no entry;
    true when every name has a first entry that is online; false when
    every name has an entry and the first entry of some name is not
    online. *)
Theorem checkIndexesActive_outcomes indexes checkList :
  (checkIndexesActive indexes checkList
     = inl (queryIndexError true "the index specified does not exist")
   ∧ ∃ name, name ∈ checkList ∧ absent indexes name)
  ∨ (checkIndexesActive indexes checkList = inr true
     ∧ Forall (λ name, ∃ q, firstNamed indexes name q ∧ qi_State q = "online") checkList)
  ∨ (checkIndexesActive indexes checkList = inr false
     ∧ Forall (λ name, ∃ q, firstNamed indexes name q) checkList
     ∧ Exists (λ name, ∃ q, firstNamed indexes name q ∧ qi_State q ≠ "online") checkList).
Proof.
  destruct (checkIndexesActive indexes checkList) as [err|[|]] eqn:Hcheck.
  - left. unfold checkIndexesActive in Hcheck.
    destruct (negb _) eqn:Hlen in Hcheck; [|done]. injection Hcheck as <-.
    split; [done|]. apply checkIndexesActive_missing.
    unfold checkIndexesActive. by rewrite Hlen.
  - right. left. split; [done|]. by apply checkIndexesActive_true.
  - right. right. split; [done|].
    unfold checkIndexesActive in Hcheck.
    destruct (Nat.eqb_spec (length (collectIndexes indexes checkList)) (length checkList))
      as [Hlen|Hlen]; simpl in Hcheck; [|done].
    injection Hcheck as Hoff.
    apply collectIndexes_length in Hlen. rewrite Forall_forall in Hlen.
    assert (∀ name, name ∈ checkList → ∃ q, firstNamed indexes name q) as Hpresent.
    { intros name Hin. destruct (findIndex indexes name) as [q|] eqn:Hfind.
      - exists q. by apply findIndex_Some.
      - by destruct (Hlen name Hin). }
    split; [by apply Forall_forall|].
    assert (¬ Forall (λ name, ∀ q, findIndex indexes name = Some q
                               → qi_State q = "online") checkList) as Hnot.
    { intros Hall. apply allOnline_collect in Hall. congruence. }
    apply not_Forall_Exists in Hnot.
    2: { intros name. destruct (findIndex indexes name) as [q|].
         - destruct (decide (qi_State q = "online")) as [Hon|Hne].
           + left. by intros ? [= <-].
           + right. intros H. apply Hne. by apply H.
         - left. done. }
    apply (Exists_impl _ _ _ Hnot). intros name Hname. simpl in Hname.
    destruct (findIndex indexes name) as [q|] eqn:Hfind.
    + exists q. split; [by apply findIndex_Some|].
      intros Hon. apply Hname. by intros ? [= <-].
    + destruct Hname. done.
Qed.

(** ** Design documents *)

(** What [TrimLeft] leaves does not start with a character of the cutset. *)
Lemma TrimLeft_head (s cutset : string) :
  match TrimLeft s cutset with
  | EmptyString => True
  | String c _ => inCutset c cutset = false
  end.
Proof.
  induction s as [|c s IH]; simpl; [done|].
  destruct (inCutset c cutset) eqn:Hc; [done|]. simpl. done.
Qed.

Lemma TrimLeft_no_dev_prefix (s : string) : HasPrefix (TrimLeft s "dev_") "dev_" = false.
Proof.
  pose proof (TrimLeft_head s "dev_") as H.
  destruct (TrimLeft s "dev_") as [|c rest]; [done|].
  simpl in *. by destruct (Ascii.eqb c _).
Qed.

(** The name [ddocName] computes carries the "dev_" prefix in the
    development namespace and never in the production namespace, and
    applying [ddocName] again for the same namespace changes nothing. *)
Theorem ddocName_idempotent (name : string) (namespace : DesignDocumentNamespace) :
  HasPrefix (ddocName name namespace) "dev_" = negb namespace
  ∧ ddocName (ddocName name namespace) namespace = ddocName name namespace.
Proof.
  assert (HasPrefix (ddocName name namespace) "dev_" = negb namespace) as Hprefix.
  { destruct namespace.
    - unfold ddocName. destruct (HasPrefix name "dev_") eqn:Hname; [|done].
      apply TrimLeft_no_dev_prefix.
    - apply ddocName_development. }
  split; [done|].
  unfold ddocName at 1. rewrite Hprefix. by destruct namespace.
Qed.

Ltac publish_step := cbn -[ddocName TrimPrefix String.append].

(** Publishing succeeds exactly when two requests were sent, the read of
    the development document was answered with status 200 and a body
    that decodes, and the write to the production namespace was answered
    with status 201. *)
Theorem PublishDesignDocument_succeeds_iff decode encode vm name opts now uid :
  let run := PublishDesignDocument decode encode vm name opts now uid in
  run.2 = None ↔
  ∃ get put answered written ddoc,
    run.1 = [get; put]
    ∧ vm_httpClient vm get = inr answered ∧ StatusCode answered = 200
    ∧ decode (RespBody answered) = inr ddoc
    ∧ vm_httpClient vm put = inr written ∧ StatusCode written = 201.
Proof.
  unfold PublishDesignDocument, getDesignDocument. publish_step.
  match goal with |- context [vm_httpClient vm ?r] => set (get := r) end.
  destruct (vm_httpClient vm get) as [[|why]|[status body]] eqn:Hget; publish_step.
  1,2: split; [done|]; intros (? & ? & ? & ? & ? & Hsent & _); discriminate Hsent.
  destruct (Z.eqb_spec status 200) as [->|Hstatus]; publish_step.
  2: { destruct body as [data|failure]; publish_step;
       (split; [try done; by destruct (status =? 404)|]);
       intros (? & ? & ? & ? & ? & Hsent & _); discriminate Hsent. }
  destruct (decode body) as [why|ddoc] eqn:Hdecode; publish_step.
  { split; [done|]. intros (? & ? & ? & ? & ? & Hsent & _). discriminate Hsent. }
  unfold upsertDesignDocument. publish_step.
  destruct (encode _) as [why|data]; publish_step.
  { split; [done|]. intros (? & ? & ? & ? & ? & Hsent & _). discriminate Hsent. }
  match goal with |- context [vm_httpClient vm ?r] =>
    lazymatch r with get => fail | _ => set (put := r) end end.
  destruct (vm_httpClient vm put) as [[|why]|[status' body']] eqn:Hput; publish_step.
  1,2: split; [done|]; intros (? & ? & ? & ? & ? & [= <- <-] & _ & _ & _ & Hw & _);
    rewrite Hput in Hw; discriminate Hw.
  destruct (Z.eqb_spec status' 201) as [->|Hstatus']; publish_step.
  - split; [|done]. intros _. exists get, put. eauto 10.
  - split.
    + by destruct (ReadAll body').
    + intros (? & ? & ? & ? & ? & [= <- <-] & _ & _ & _ & Hw & Hs).
      rewrite Hput in Hw. injection Hw as <-. done.
Qed.

(** When the development document does not exist (the read is answered
    with status 404), publishing sends nothing more and returns the
    view index error "Development design document does not exist" with
    [indexMissing] set. *)
Theorem PublishDesignDocument_missing decode encode vm name opts now uid get answered data :
  let run := PublishDesignDocument decode encode vm name opts now uid in
  head run.1 = Some get →
  vm_httpClient vm get = inr answered →
  StatusCode answered = 404 →
  RespBody answered = BodyData data →
  run = ([get],
         Some (viewIndexError 0 "Development design document does not exist" true)).
Proof.
  intros run Hhead Hanswer Hstatus Hbody. subst run. revert Hhead.
  unfold PublishDesignDocument, getDesignDocument. publish_step.
  match goal with |- context [vm_httpClient vm ?r] => set (req := r) end.
  assert (Some req = Some get → vm_httpClient vm req = inr answered) as Hreq.
  { intros [= Heq]. rewrite Heq. exact Hanswer. }
  destruct (vm_httpClient vm req) as [[|why]|[status body]] eqn:Hget; publish_step.
  1,2: intros Hhead; discriminate (Hreq Hhead).
  destruct (Z.eqb_spec status 200) as [->|Hne]; publish_step.
  - assert (Some req = Some get → False) as Hno.
    { intros Hhead. pose proof (Hreq Hhead) as Heq.
      injection Heq as <-. simpl in Hstatus. discriminate Hstatus. }
    destruct (decode body); publish_step; [by intros Hhead; destruct (Hno Hhead)|].
    unfold upsertDesignDocument. publish_step.
    destruct (encode _); publish_step; [by intros Hhead; destruct (Hno Hhead)|].
    destruct (vm_httpClient vm _) as [[|?]|[? ?]]; publish_step;
      intros Hhead; destruct (Hno Hhead).
  - destruct body as [found|failure]; publish_step;
      intros Hhead; pose proof (Hreq Hhead) as Heq; injection Heq as <-;
      simpl in Hstatus, Hbody; [|discriminate Hbody].
    injection Hbody as ->. subst status. publish_step.
    injection Hhead as Hsame. rewrite <- Hsame. reflexivity.
Qed.

Lemma PublishDesignDocument_missing_witness :
  let vm := {| vm_bucketName := "b";
               vm_httpClient := λ _, inr {| StatusCode := 404;
                                             RespBody := BodyData "not_found" |};
               vm_globalTimeout := 75 * Second;
               vm_defaultRetryStrategy := newRetryStrategyWrapper None |} in
  (PublishDesignDocument (λ _, inl "") (λ _, inl "") vm "views" None 0 "u").2
    = Some (viewIndexError 0 "Development design document does not exist" true).
Proof.
  intros vm.
  destruct (PublishDesignDocument (λ _, inl "") (λ _, inl "") vm "views" None 0 "u").1
    as [|get rest] eqn:Hsent; [vm_compute in Hsent; discriminate Hsent|].
  rewrite (PublishDesignDocument_missing (λ _, inl "") (λ _, inl "") vm "views" None 0 "u"
             get {| StatusCode := 404; RespBody := BodyData "not_found" |} "not_found").
  - reflexivity.
  - by rewrite Hsent.
  - reflexivity.
  - reflexivity.
  - reflexivity.
Defined.

(** [PublishDesignDocument_paths] at work. *)
Lemma PublishDesignDocument_paths_witness :
  let vm := {| vm_bucketName := "b";
               vm_httpClient := λ _, inr {| StatusCode := 404;
                                             RespBody := BodyData "not_found" |};
               vm_globalTimeout := 75 * Second;
               vm_defaultRetryStrategy := newRetryStrategyWrapper None |} in
  let sent := (PublishDesignDocument (λ _, inl "") (λ _, inl "") vm "views" None 0 "u").1 in
  map (λ req, (Method req, Path req)) sent = [("GET", "/_design/dev_views")]
  ∨ map (λ req, (Method req, Path req)) sent
    = [("GET", "/_design/dev_views"); ("PUT", "/_design/views")].
Proof.
  intros vm.
  exact (PublishDesignDocument_paths (λ _, inl "") (λ _, inl "") vm "views" None 0 "u" eq_refl).
Defined.

(** ** View query options: the other parameters *)

Section ViewOptionsMore.
Variable marshalJson : any → string + string.

(** A successful run of [toURLValues], step by step. *)
Lemma toURLValues_trace opts m :
  toURLValues marshalJson opts = inr m →
  ∃ o1 o2 o3 o4 o5 o6 o7,
    setStale opts ∅ = inr o1
    ∧ setOrder opts (setPaging opts o1) = inr o2
    ∧ setKey marshalJson opts (setReduce opts o2) = inr o3
    ∧ setKeys marshalJson opts o3 = inr o4
    ∧ setStartKey marshalJson opts o4 = inr o5
    ∧ setEndKey marshalJson opts o5 = inr o6
    ∧ setOnError opts (setRange opts o6) = inr o7
    ∧ m = setDebugAndRaw opts o7.
Proof.
  rewrite toURLValues_steps. intros H.
  destruct (setStale opts ∅) as [?|o1] eqn:H1; [done|].
  destruct (setOrder opts (setPaging opts o1)) as [?|o2] eqn:H2; [done|].
  destruct (setKey marshalJson opts (setReduce opts o2)) as [?|o3] eqn:H3; [done|].
  destruct (setKeys marshalJson opts o3) as [?|o4] eqn:H4; [done|].
  destruct (setStartKey marshalJson opts o4) as [?|o5] eqn:H5; [done|].
  destruct (setEndKey marshalJson opts o5) as [?|o6] eqn:H6; [done|].
  destruct (setOnError opts (setRange opts o6)) as [?|o7] eqn:H7; [done|].
  injection H as <-. by exists o1, o2, o3, o4, o5, o6, o7.
Qed.

(** When each step fails. *)
Lemma setStale_fails opts o :
  (∃ err, setStale opts o = inl err) ↔
  ScanConsistency opts ≠ 0
  ∧ ScanConsistency opts ≠ ViewScanConsistencyRequestPlus
  ∧ ScanConsistency opts ≠ ViewScanConsistencyNotBounded
  ∧ ScanConsistency opts ≠ ViewScanConsistencyUpdateAfter.
Proof.
  unfold setStale.
  destruct (Z.eqb_spec (ScanConsistency opts) 0); simpl;
    [split; [by intros [? ?]|by intros [? _]]|].
  destruct (Z.eqb_spec (ScanConsistency opts) ViewScanConsistencyRequestPlus);
    [split; [by intros [? ?]|by intros (_ & ? & _)]|].
  destruct (Z.eqb_spec (ScanConsistency opts) ViewScanConsistencyNotBounded);
    [split; [by intros [? ?]|by intros (_ & _ & ? & _)]|].
  destruct (Z.eqb_spec (ScanConsistency opts) ViewScanConsistencyUpdateAfter);
    [split; [by intros [? ?]|by intros (_ & _ & _ & ?)]|].
  split; [done|by eauto].
Qed.

Lemma setOrder_fails opts o :
  (∃ err, setOrder opts o = inl err) ↔
  Order opts ≠ 0 ∧ Order opts ≠ ViewOrderingAscending
  ∧ Order opts ≠ ViewOrderingDescending.
Proof.
  unfold setOrder.
  destruct (Z.eqb_spec (Order opts) 0); simpl;
    [split; [by intros [? ?]|by intros [? _]]|].
  destruct (Z.eqb_spec (Order opts) ViewOrderingAscending);
    [split; [by intros [? ?]|by intros (_ & ? & _)]|].
  destruct (Z.eqb_spec (Order opts) ViewOrderingDescending);
    [split; [by intros [? ?]|by intros (_ & _ & ?)]|].
  split; [done|by eauto].
Qed.

Lemma setOnError_fails opts o :
  (∃ err, setOnError opts o = inl err) ↔ 2 < OnError opts.
Proof.
  unfold setOnError, ViewErrorModeContinue, ViewErrorModeStop.
  destruct (Z.gtb_spec (OnError opts) 0); simpl;
    [|split; [by intros [? ?]|lia]].
  destruct (Z.eqb_spec (OnError opts) 1); [split; [by intros [? ?]|lia]|].
  destruct (Z.eqb_spec (OnError opts) 2); [split; [by intros [? ?]|lia]|].
  split; [lia|by eauto].
Qed.

Lemma marshal_fails value :
  (∃ err, marshal marshalJson value = inl err) ↔ ∃ what, marshalJson value = inl what.
Proof.
  unfold marshal. destruct (marshalJson value) as [what|text].
  - split; by eauto.
  - split; [by intros [? ?]|by intros [? ?]].
Qed.

Lemma guarded_marshal_fails (value : any) (key : string)
    (o fallback : gmap string (list string)) :
  (∃ err, (if notNil value
           then try text := marshal marshalJson value in inr (Values_Set key text o)
           else inr fallback) = inl err) ↔
  value ≠ AnyNil ∧ refused marshalJson value.
Proof.
  unfold refused. rewrite <- marshal_fails.
  destruct (notNil value) eqn:Hnil.
  - assert (value ≠ AnyNil) by (intros ->; done).
    destruct (marshal marshalJson value) as [err|text].
    + split; by eauto.
    + split; [by intros [? ?]|by intros [_ [? ?]]].
  - assert (value = AnyNil) as -> by (by destruct value).
    split; [by intros [? ?]|by intros [? _]].
Qed.

Lemma setKey_fails opts o :
  (∃ err, setKey marshalJson opts o = inl err) ↔
  Key opts ≠ AnyNil ∧ refused marshalJson (Key opts).
Proof. apply guarded_marshal_fails. Qed.

Lemma setKeys_fails opts o :
  (∃ err, setKeys marshalJson opts o = inl err) ↔
  Keys opts ≠ [] ∧ refused marshalJson (AnyList (Keys opts)).
Proof.
  unfold setKeys, refused. rewrite <- marshal_fails.
  destruct (Keys opts) as [|k keys] eqn:Hkeys; simpl.
  - split; [by intros [? ?]|by intros [? _]].
  - destruct (marshal marshalJson _) as [err|text].
    + split; by eauto.
    + split; [by intros [? ?]|by intros [_ [? ?]]].
Qed.

Lemma setStartKey_fails opts o :
  (∃ err, setStartKey marshalJson opts o = inl err) ↔
  StartKey opts ≠ AnyNil ∧ refused marshalJson (StartKey opts).
Proof. apply guarded_marshal_fails. Qed.

Lemma setEndKey_fails opts o :
  (∃ err, setEndKey marshalJson opts o = inl err) ↔
  EndKey opts ≠ AnyNil ∧ refused marshalJson (EndKey opts).
Proof. apply guarded_marshal_fails. Qed.

(** [toURLValues] fails exactly when [ScanConsistency] or [Order] is
    neither zero nor one of its constants, when [OnError] is greater
    than 2, or when the JSON encoder refuses [Key], a non-empty [Keys],
    [StartKey] or [EndKey].  A negative [OnError] is not an error. *)
Theorem toURLValues_fails_iff opts :
  (∃ err, toURLValues marshalJson opts = inl err) ↔
  (ScanConsistency opts ≠ 0
   ∧ ScanConsistency opts ≠ ViewScanConsistencyRequestPlus
   ∧ ScanConsistency opts ≠ ViewScanConsistencyNotBounded
   ∧ ScanConsistency opts ≠ ViewScanConsistencyUpdateAfter)
  ∨ (Order opts ≠ 0 ∧ Order opts ≠ ViewOrderingAscending
     ∧ Order opts ≠ ViewOrderingDescending)
  ∨ 2 < OnError opts
  ∨ (Key opts ≠ AnyNil ∧ refused marshalJson (Key opts))
  ∨ (Keys opts ≠ [] ∧ refused marshalJson (AnyList (Keys opts)))
  ∨ (StartKey opts ≠ AnyNil ∧ refused marshalJson (StartKey opts))
  ∨ (EndKey opts ≠ AnyNil ∧ refused marshalJson (EndKey opts)).
Proof.
  rewrite toURLValues_steps.
  rewrite <- (setStale_fails opts ∅).
  destruct (setStale opts ∅) as [e1|o1]; [split; by eauto|].
  rewrite <- (setOrder_fails opts (setPaging opts o1)).
  destruct (setOrder opts (setPaging opts o1)) as [e2|o2]; [split; by eauto 6|].
  rewrite <- (setKey_fails opts (setReduce opts o2)).
  destruct (setKey marshalJson opts (setReduce opts o2)) as [e3|o3];
    [split; by eauto 8|].
  rewrite <- (setKeys_fails opts o3).
  destruct (setKeys marshalJson opts o3) as [e4|o4]; [split; by eauto 10|].
  rewrite <- (setStartKey_fails opts o4).
  destruct (setStartKey marshalJson opts o4) as [e5|o5]; [split; by eauto 10|].
  rewrite <- (setEndKey_fails opts o5).
  destruct (setEndKey marshalJson opts o5) as [e6|o6]; [split; by eauto 10|].
  rewrite <- (setOnError_fails opts (setRange opts o6)).
  destruct (setOnError opts (setRange opts o6)) as [e7|o7]; [split; by eauto 10|].
  split; [by intros [? ?]|].
  intros [[? ?]|[[? ?]|[[? ?]|[[? ?]|[[? ?]|[[? ?]|[? ?]]]]]]]; done.
Qed.

(** On success every entry of [Raw] is in the result with its value and
    nothing else under its key, and every parameter of the result has
    exactly one value. *)
Theorem toURLValues_raw_wins opts m :
  toURLValues marshalJson opts = inr m →
  (∀ k v, Raw opts !! k = Some v → m !! k = Some [v])
  ∧ (∀ k values, m !! k = Some values → length values = 1%nat).
Proof.
  intros Hm.
  destruct (toURLValues_trace opts m Hm)
    as (o1 & o2 & o3 & o4 & o5 & o6 & o7 & H1 & H2 & H3 & H4 & H5 & H6 & H7 & ->).
  split.
  { intros k v Hraw. unfold setDebugAndRaw. by rewrite raw_fold_lookup, Hraw. }
  pose (single := λ o : gmap string (list string),
          ∀ k values, o !! k = Some values → length values = 1%nat).
  assert (∀ o key value, single o → single (Values_Set key value o)) as Hset.
  { intros o key value Ho k values. unfold Values_Set. rewrite lookup_insert.
    case_decide; [by intros [= <-]|apply Ho]. }
  assert (∀ o key, single o → single (Values_Del key o)) as Hdel.
  { intros o key Ho k values. unfold Values_Del. rewrite lookup_delete.
    case_decide; [done|apply Ho]. }
  assert (single o1) as S1.
  { unfold setStale in H1. repeat case_match; simplify_eq; try apply Hset; done. }
  assert (single o2) as S2.
  { unfold setOrder, setPaging in H2.
    repeat case_match; simplify_eq; repeat apply Hset; done. }
  assert (single o3) as S3.
  { unfold setKey, setReduce, marshal in H3.
    repeat case_match; simplify_eq; repeat apply Hset; done. }
  assert (single o4) as S4.
  { unfold setKeys, marshal in H4.
    repeat case_match; simplify_eq; repeat apply Hset; done. }
  assert (single o5) as S5.
  { unfold setStartKey, marshal in H5.
    repeat case_match; simplify_eq; try apply Hset; try apply Hdel; done. }
  assert (single o6) as S6.
  { unfold setEndKey, marshal in H6.
    repeat case_match; simplify_eq; try apply Hset; try apply Hdel; done. }
  assert (single o7) as S7.
  { unfold setOnError, setRange in H7.
    repeat case_match; simplify_eq;
      repeat first [apply Hset | apply Hdel]; done. }
  intros k values. unfold setDebugAndRaw. rewrite raw_fold_lookup.
  destruct (Raw opts !! k); [by intros [= <-]|].
  destruct (Debug opts); [by apply Hset|by apply S7].
Qed.

Lemma setReduce_lookup_other opts o k :
  k ≠ "reduce" → k ≠ "group" → k ≠ "group_level" → setReduce opts o !! k = o !! k.
Proof.
  intros. unfold setReduce, Values_Set.
  repeat case_match; repeat (rewrite lookup_insert_ne by done); done.
Qed.

(** Peel the steps of a successful run off a lookup, from the last step
    back to the first one that writes the key. *)
Ltac peel H1 H2 H3 H4 H5 H6 H7 :=
  try (rewrite (setOnError_lookup _ _ _ _ H7) by done);
  try (rewrite setRange_lookup by done);
  try (rewrite (setEndKey_lookup _ _ _ _ _ H6) by done);
  try (rewrite (setStartKey_lookup _ _ _ _ _ H5) by done);
  try (rewrite (setKeys_lookup _ _ _ _ _ H4) by done);
  try (rewrite (setKey_lookup _ _ _ _ _ H3) by done);
  try (rewrite setReduce_lookup_other by done);
  try (rewrite (setOrder_lookup _ _ _ _ H2) by done);
  try (rewrite setPaging_lookup by done);
  try (rewrite (setStale_lookup _ _ _ _ H1) by done);
  try (rewrite lookup_empty).

(** On success, and for each key without an entry in [Raw]: "skip" and
    "limit" are sent, in decimal, exactly when they are not zero;
    "descending" is "false" for ascending and "true" for descending
    order and absent without an order; "on_error" is "continue" or
    "stop" for the two modes and absent otherwise, also for a negative
    mode; "debug" is "true" when set and absent otherwise. *)
Theorem toURLValues_paging_order opts m :
  toURLValues marshalJson opts = inr m →
  (Raw opts !! "skip" = None →
     m !! "skip" = if (Skip opts =? 0)%N then None else Some [FormatUint (Skip opts)])
  ∧ (Raw opts !! "limit" = None →
       m !! "limit" = if (Limit opts =? 0)%N then None else Some [FormatUint (Limit opts)])
  ∧ (Raw opts !! "descending" = None →
       m !! "descending" =
         if Order opts =? ViewOrderingAscending then Some ["false"]
         else if Order opts =? ViewOrderingDescending then Some ["true"]
         else None)
  ∧ (Raw opts !! "on_error" = None →
       m !! "on_error" =
         if OnError opts =? ViewErrorModeContinue then Some ["continue"]
         else if OnError opts =? ViewErrorModeStop then Some ["stop"]
         else None)
  ∧ (Raw opts !! "debug" = None →
       m !! "debug" = if Debug opts then Some ["true"] else None).
Proof.
  intros Hm.
  destruct (toURLValues_trace opts m Hm)
    as (o1 & o2 & o3 & o4 & o5 & o6 & o7 & H1 & H2 & H3 & H4 & H5 & H6 & H7 & ->).
  repeat split; intros Hraw.
  - rewrite setDebugAndRaw_lookup, Hraw by done. peel H1 H2 H3 H4 H5 H6 H7.
    unfold setPaging, Values_Set.
    destruct (Skip opts =? 0)%N, (Limit opts =? 0)%N; simpl;
      repeat first [rewrite lookup_insert_eq | rewrite lookup_insert_ne by done];
      peel H1 H2 H3 H4 H5 H6 H7; done.
  - rewrite setDebugAndRaw_lookup, Hraw by done. peel H1 H2 H3 H4 H5 H6 H7.
    unfold setPaging, Values_Set.
    destruct (Skip opts =? 0)%N, (Limit opts =? 0)%N; simpl;
      repeat first [rewrite lookup_insert_eq | rewrite lookup_insert_ne by done];
      peel H1 H2 H3 H4 H5 H6 H7; done.
  - rewrite setDebugAndRaw_lookup, Hraw by done. peel H1 H2 H3 H4 H5 H6 H7.
    unfold setOrder, Values_Set, ViewOrderingAscending, ViewOrderingDescending in *.
    destruct (Z.eqb_spec (Order opts) 0) as [Hz|Hz]; simpl in H2.
    + rewrite Hz. simpl. injection H2 as <-. by peel H1 H2 H3 H4 H5 H6 H7.
    + destruct (Order opts =? 1); [injection H2 as <-; by rewrite lookup_insert_eq|].
      destruct (Order opts =? 2); [injection H2 as <-; by rewrite lookup_insert_eq|].
      done.
  - rewrite setDebugAndRaw_lookup, Hraw by done.
    unfold setOnError, Values_Set, ViewErrorModeContinue, ViewErrorModeStop in *.
    destruct (Z.gtb_spec (OnError opts) 0) as [Hpos|Hneg].
    + destruct (OnError opts =? 1); [injection H7 as <-; by rewrite lookup_insert_eq|].
      destruct (OnError opts =? 2); [injection H7 as <-; by rewrite lookup_insert_eq|].
      done.
    + injection H7 as <-.
      destruct (Z.eqb_spec (OnError opts) 1); [lia|].
      destruct (Z.eqb_spec (OnError opts) 2); [lia|].
      by peel H1 H2 H3 H4 H5 H6 H7.
  - unfold setDebugAndRaw. rewrite raw_fold_lookup, Hraw.
    destruct (Debug opts); unfold Values_Set; [by rewrite lookup_insert_eq|].
    by peel H1 H2 H3 H4 H5 H6 H7.
Qed.

(** On success, and for each key without an entry in [Raw]: "key",
    "startkey" and "endkey" carry the JSON text of the option when it is
    not nil and are absent otherwise; "inclusive_end" is sent exactly
    when a start key or an end key is given; "startkey_docid" and
    "endkey_docid" are sent exactly when they are not empty. *)
Theorem toURLValues_keys_range opts m :
  toURLValues marshalJson opts = inr m →
  let json value := if notNil value
                    then match marshalJson value with
                         | inr text => Some [text]
                         | inl _ => None
                         end
                    else None in
  (Raw opts !! "key" = None → m !! "key" = json (Key opts))
  ∧ (Raw opts !! "startkey" = None → m !! "startkey" = json (StartKey opts))
  ∧ (Raw opts !! "endkey" = None → m !! "endkey" = json (EndKey opts))
  ∧ (Raw opts !! "inclusive_end" = None →
       m !! "inclusive_end" =
         if notNil (StartKey opts) || notNil (EndKey opts)
         then Some [if InclusiveEnd opts then "true" else "false"]
         else None)
  ∧ (Raw opts !! "startkey_docid" = None →
       m !! "startkey_docid" =
         if String.eqb (StartKeyDocID opts) "" then None
         else Some [StartKeyDocID opts])
  ∧ (Raw opts !! "endkey_docid" = None →
       m !! "endkey_docid" =
         if String.eqb (EndKeyDocID opts) "" then None
         else Some [EndKeyDocID opts]).
Proof.
  intros Hm json.
  destruct (toURLValues_trace opts m Hm)
    as (o1 & o2 & o3 & o4 & o5 & o6 & o7 & H1 & H2 & H3 & H4 & H5 & H6 & H7 & ->).
  subst json. repeat split; intros Hraw;
    rewrite setDebugAndRaw_lookup, Hraw by done.
  - peel H1 H2 H3 H4 H5 H6 H7.
    unfold setKey, marshal, Values_Set in H3.
    destruct (notNil (Key opts)).
    + destruct (marshalJson (Key opts)); [done|]. injection H3 as <-.
      by rewrite lookup_insert_eq.
    + injection H3 as <-. by peel H1 H2 H3 H4 H5 H6 H7.
  - peel H1 H2 H3 H4 H5 H6 H7.
    unfold setStartKey, marshal, Values_Set, Values_Del in H5.
    destruct (notNil (StartKey opts)).
    + destruct (marshalJson (StartKey opts)); [done|]. injection H5 as <-.
      by rewrite lookup_insert_eq.
    + injection H5 as <-. by rewrite lookup_delete_eq.
  - peel H1 H2 H3 H4 H5 H6 H7.
    unfold setEndKey, marshal, Values_Set, Values_Del in H6.
    destruct (notNil (EndKey opts)).
    + destruct (marshalJson (EndKey opts)); [done|]. injection H6 as <-.
      by rewrite lookup_insert_eq.
    + injection H6 as <-. by rewrite lookup_delete_eq.
  - peel H1 H2 H3 H4 H5 H6 H7.
    unfold setRange, Values_Set, Values_Del.
    repeat case_match;
      repeat first [rewrite lookup_insert_eq | rewrite lookup_insert_ne by done
                   | rewrite lookup_delete_ne by done];
      peel H1 H2 H3 H4 H5 H6 H7; done.
  - peel H1 H2 H3 H4 H5 H6 H7.
    unfold setRange, Values_Set, Values_Del.
    repeat case_match;
      repeat first [rewrite lookup_insert_eq | rewrite lookup_delete_eq
                   | rewrite lookup_insert_ne by done
                   | rewrite lookup_delete_ne by done];
      peel H1 H2 H3 H4 H5 H6 H7; done.
  - peel H1 H2 H3 H4 H5 H6 H7.
    unfold setRange, Values_Set, Values_Del.
    repeat case_match;
      repeat first [rewrite lookup_insert_eq | rewrite lookup_delete_eq
                   | rewrite lookup_insert_ne by done
                   | rewrite lookup_delete_ne by done];
      peel H1 H2 H3 H4 H5 H6 H7; done.
Qed.

End ViewOptionsMore.

Lemma toURLValues_raw_wins_witness :
  let opts :=
    {| ScanConsistency := ViewScanConsistencyNotBounded; Skip := 0; Limit := 20; Order := 0;
       Reduce := true; Group := false; GroupLevel := 0;
       Key := AnyNil; Keys := [AnyString "a"; AnyString "b"]; StartKey := AnyNil;
       EndKey := AnyNil; InclusiveEnd := false; StartKeyDocID := ""; EndKeyDocID := "";
       Namespace := true; Raw := {[ "limit" := "7" ]}; OnError := 0; Debug := false |} in
  ∃ m, toURLValues (λ _, inr "[1]") opts = inr m ∧ m !! "limit" = Some ["7"].
Proof.
  intros opts.
  destruct (toURLValues (λ _, inr "[1]") opts) as [err|m] eqn:Hm.
  { vm_compute in Hm. discriminate Hm. }
  exists m. split; [reflexivity|].
  exact (proj1 (toURLValues_raw_wins (λ _, inr "[1]") opts m Hm) "limit" "7" eq_refl).
Defined.

Lemma toURLValues_paging_order_witness :
  let opts :=
    {| ScanConsistency := 0; Skip := 40; Limit := 0; Order := ViewOrderingDescending;
       Reduce := false; Group := false; GroupLevel := 0;
       Key := AnyNil; Keys := []; StartKey := AnyNil; EndKey := AnyNil;
       InclusiveEnd := false; StartKeyDocID := ""; EndKeyDocID := "";
       Namespace := true; Raw := ∅; OnError := -1; Debug := false |} in
  ∃ m, toURLValues (λ _, inr "null") opts = inr m
       ∧ m !! "skip" = Some ["40"] ∧ m !! "limit" = None
       ∧ m !! "descending" = Some ["true"] ∧ m !! "on_error" = None.
Proof.
  intros opts.
  destruct (toURLValues (λ _, inr "null") opts) as [err|m] eqn:Hm.
  { vm_compute in Hm. discriminate Hm. }
  exists m. split; [reflexivity|].
  destruct (toURLValues_paging_order (λ _, inr "null") opts m Hm) as (Hs & Hl & Hd & He & _).
  split; [exact (Hs eq_refl)|]. split; [exact (Hl eq_refl)|].
  split; [exact (Hd eq_refl)|exact (He eq_refl)].
Defined.

Lemma toURLValues_keys_range_witness :
  let opts :=
    {| ScanConsistency := 0; Skip := 0; Limit := 0; Order := 0;
       Reduce := false; Group := false; GroupLevel := 0;
       Key := AnyNil; Keys := []; StartKey := AnyString "a"; EndKey := AnyNil;
       InclusiveEnd := false; StartKeyDocID := "doc-1"; EndKeyDocID := "";
       Namespace := true; Raw := ∅; OnError := 0; Debug := false |} in
  ∃ m, toURLValues (λ _, inr "a") opts = inr m
       ∧ m !! "startkey" = Some ["a"] ∧ m !! "endkey" = None
       ∧ m !! "inclusive_end" = Some ["false"]
       ∧ m !! "startkey_docid" = Some ["doc-1"].
Proof.
  intros opts.
  destruct (toURLValues (λ _, inr "a") opts) as [err|m] eqn:Hm.
  { vm_compute in Hm. discriminate Hm. }
  exists m. split; [reflexivity|].
  destruct (toURLValues_keys_range (λ _, inr "a") opts m Hm) as (_ & Hs & He & Hi & Hd & _).
  split; [exact (Hs eq_refl)|]. split; [exact (He eq_refl)|].
  split; [exact (Hi eq_refl)|exact (Hd eq_refl)].
Defined.

(** ** Mutations *)

Lemma dropLastByte_app (body : string) (last : Ascii.ascii) :
  dropLastByte (body +:+ String last "") = body.
Proof.
  induction body as [|c body IH]; simpl; [done|].
  rewrite IH. by destruct body.
Qed.

(** [encodeMultiArray] hands back the text between the first and the
    last byte of the serialized value: for a JSON array, its elements.
    It fails when the value cannot be serialized and when the text has
    fewer than two bytes or does not start with "["; it does not look at
    the last byte. *)
Theorem encodeMultiArray_strips Serialize v :
  (∀ what, Serialize v = inl what → encodeMultiArray Serialize v = inl (jsonError what))
  ∧ (∀ body last, Serialize v = inr (String openBracket (body +:+ String last "")) →
       encodeMultiArray Serialize v = inr body)
  ∧ (∀ out, Serialize v = inr out → (String.length out < 2)%nat →
       encodeMultiArray Serialize v = inl (errorsNew "not a JSON array"))
  ∧ (∀ first rest, Serialize v = inr (String first rest) → first ≠ openBracket →
       encodeMultiArray Serialize v = inl (errorsNew "not a JSON array")).
Proof.
  unfold encodeMultiArray. repeat split.
  - by intros what ->.
  - intros body last ->. rewrite Ascii.eqb_refl. simpl.
    rewrite dropLastByte_app. by destruct body.
  - intros out -> Hlen. destruct out as [|c [|c' out]]; simpl in *; [done|done|lia].
  - intros first rest -> Hfirst.
    destruct (Ascii.eqb_spec first openBracket); [done|].
    by rewrite orb_true_r.
Qed.

(** What the loop of [mutate] returns on success: the operations it
    started with, followed by one engine operation for each mutation,
    in order. *)
Lemma encodeOps_spec Serialize (ops : list MutateInOp) :
  ∀ subdocs result,
    encodeOps Serialize ops subdocs = inr result →
    ∃ added, result = subdocs ++ added ∧ Forall2 (encodes Serialize) ops added.
Proof.
  induction ops as [|op ops IH]; intros subdocs result; simpl.
  { intros [= <-]. exists []. by rewrite app_nil_r. }
  destruct (notNil (Value (mutate_op op))) eqn:Hnil; simpl.
  - destruct (MultiValue (mutate_op op)) eqn:Hmulti.
    + destruct (encodeMultiArray Serialize (Value (mutate_op op))) as [err|text] eqn:Henc;
        [done|].
      intros Hrest. destruct (IH _ _ Hrest) as (added & -> & Hall).
      eexists (_ :: added). rewrite <- app_assoc. split; [reflexivity|].
      constructor; [|done]. unfold encodes; simpl. by rewrite Hnil, Hmulti.
    + destruct (Serialize (Value (mutate_op op))) as [what|text] eqn:Henc; [done|].
      intros Hrest. destruct (IH _ _ Hrest) as (added & -> & Hall).
      eexists (_ :: added). rewrite <- app_assoc. split; [reflexivity|].
      constructor; [|done]. unfold encodes; simpl. by rewrite Hnil, Hmulti.
  - intros Hrest. destruct (IH _ _ Hrest) as (added & -> & Hall).
    eexists (_ :: added). rewrite <- app_assoc. split; [reflexivity|].
    constructor; [|done]. unfold encodes; simpl. by rewrite Hnil.
Qed.

Section MutateFacts.
Variable Serialize : any → string + string.
Variable SubdocDocFlagMkDoc : Z.
Variable SubdocDocFlagReplaceDoc : Z.
Variable SubdocDocFlagAccessDeleted : Z.
Variable durabilityTimeout : Context → Z → bool * Z.
Variable mutReply : Type.
Variable MutateInResult : Type.
Variable finishMutation : Context → bool → mutReply → error + MutateInResult.

(** [mutate] serializes every value before it sends anything.  When a
    value cannot be serialized, or the collection has no kv provider,
    nothing is dispatched and that error is returned.  Otherwise one
    request is dispatched; it carries one engine operation for each
    mutation, in order, whatever their number, with the key, cas and
    expiry of the call. *)
Theorem mutate_dispatch (c : MutationCollection mutReply) ctx now key ops opts :
  let run := mutate Serialize SubdocDocFlagMkDoc SubdocDocFlagReplaceDoc
               SubdocDocFlagAccessDeleted durabilityTimeout mutReply MutateInResult
               finishMutation c ctx now key ops opts in
  (∀ err, mc_getKvProvider c = inl err → run = ([], inl err))
  ∧ (∀ agent err, mc_getKvProvider c = inr agent →
       encodeOps Serialize ops [] = inl err → run = ([], inl err))
  ∧ (∀ agent subdocs, mc_getKvProvider c = inr agent →
       encodeOps Serialize ops [] = inr subdocs →
       ∃ request,
         run.1 = [request]
         ∧ cm_Ops request = subdocs
         ∧ Forall2 (encodes Serialize) ops (cm_Ops request)
         ∧ cm_Key request = key
         ∧ cm_Cas request = mio_Cas opts
         ∧ cm_Expiry request = mio_Expiration opts).
Proof.
  intros run. subst run. unfold mutate. repeat split.
  - by intros err ->.
  - by intros agent err -> ->.
  - intros agent subdocs -> Henc. rewrite Henc.
    destruct (durabilityTimeout ctx (mio_DurabilityLevel opts)) as [coerced timeout].
    eexists. split; [reflexivity|]. simpl. split; [done|].
    destruct (encodeOps_spec Serialize ops [] subdocs Henc) as (added & -> & Hall).
    done.
Qed.
End MutateFacts.

(** The theorem at work: seventeen counter mutations go out in one
    request. *)
Lemma mutate_dispatch_witness :
  let c : MutationCollection unit :=
    {| mc_getKvProvider := inr (λ _, tt); mc_name := "_default";
       mc_scopeName := "_default" |} in
  let ops := replicate 17 (Increment 1 4 "visits" 1 None) in
  let opts := {| mio_Expiration := 0; mio_Cas := 0; mio_DurabilityLevel := 0;
                 InsertDocument := false; UpsertDocument := false;
                 AccessDeleted := false |} in
  ∃ request,
    (mutate (λ _, inr "1") 1 2 4 (λ _ _, (false, 0)) unit unit (λ _ _ _, inr tt)
       c Background 0 "doc" ops opts).1 = [request]
    ∧ length (cm_Ops request) = 17%nat.
Proof.
  intros c ops opts.
  destruct (mutate_dispatch (λ _, inr "1") 1 2 4 (λ _ _, (false, 0)) unit unit
              (λ _ _ _, inr tt) c Background 0 "doc" ops opts) as (_ & _ & Hsent).
  destruct (encodeOps (λ _, inr "1") ops []) as [err|subdocs] eqn:Henc.
  { vm_compute in Henc. discriminate Henc. }
  destruct (Hsent (λ _, tt) subdocs eq_refl eq_refl) as (request & Hrun & _ & Hall & _).
  exists request. split; [exact Hrun|].
  apply Forall2_length in Hall. rewrite <- Hall. reflexivity.
Defined.
